(** * 3pub: a curses EPUB reader -- shallow embedding and verification

    The development follows [3pub.py] function by function:

    - [PyStr]     the operations of Python's [str], [list] and [os.path]
                  that the program calls;
    - [Html]      the part of the standard [html.parser.HTMLParser] that
                  [textify] drives, and [textify] itself;
    - [Indexer]   [table_of_contents];
    - [Reader]    [check_epub], [dump_epub], [list_chaps] and the two
                  nested event loops of [curses_epub];
    - [Sample]    a small book to run them on.

    The theorems follow in [HtmlFacts], [IndexerFacts] and [ReaderFacts].

    Python [str] values are modelled by [string]; a character stands for
    the code point of the same number (below 256).  Python [int] is [Z].
    An uncaught Python exception is a value of type [exn]. *)

From Stdlib Require Import ZArith List String Ascii Bool Lia DecimalString.
From stdpp Require Import base option list gmap strings.

Set Warnings "-register-all".

Local Open Scope string_scope.
Local Open Scope Z_scope.

(** ** Python strings, lists and paths *)

Module PyStr.

Definition dquote : ascii := "034"%char.
Definition newline : ascii := "010"%char.

Definition str1 (c : ascii) : string := String c EmptyString.

Definition code (c : ascii) : N := N_of_ascii c.

Definition between (lo hi : N) (c : ascii) : bool :=
  (lo <=? code c)%N && (code c <=? hi)%N.

(** [str.isspace] on one character, for code points below 256. *)
Definition isspace (c : ascii) : bool :=
  between 9 13 c || between 28 32 c || (code c =? 133)%N || (code c =? 160)%N.

(** Upper-case letters: A to Z and those of Latin-1. *)
Definition isupper (c : ascii) : bool :=
  between 65 90 c || between 192 214 c || between 216 222 c.
Definition isalpha (c : ascii) : bool := between 65 90 c || between 97 122 c.
Definition isdigit (c : ascii) : bool := between 48 57 c.
Definition isalnum (c : ascii) : bool := isalpha c || isdigit c.

Definition lower_char (c : ascii) : ascii :=
  if isupper c then ascii_of_N (code c + 32) else c.

(** [s.lower()] *)
Fixpoint lower (s : string) : string :=
  match s with
  | EmptyString => EmptyString
  | String c r => String (lower_char c) (lower r)
  end.

(** [len(s)] *)
Definition len (s : string) : Z := Z.of_nat (String.length s).

(** [c * n] for a one-character string [c]. *)
Definition repeat_char (c : ascii) (n : nat) : string :=
  string_of_list_ascii (List.repeat c n).

(** [s.lstrip()], [s.rstrip()], [s.strip()] *)
Fixpoint lstrip (s : string) : string :=
  match s with
  | String c r => if isspace c then lstrip r else s
  | EmptyString => EmptyString
  end.

Fixpoint rstrip (s : string) : string :=
  match s with
  | EmptyString => EmptyString
  | String c r =>
      match rstrip r with
      | EmptyString => if isspace c then EmptyString else str1 c
      | r' => String c r'
      end
  end.

Definition strip (s : string) : string := rstrip (lstrip s).

(** [s.split(sep)[0]]: the text before the first [sep]. *)
Fixpoint split_head (sep : ascii) (s : string) : string :=
  match s with
  | EmptyString => EmptyString
  | String c r => if Ascii.eqb c sep then EmptyString else String c (split_head sep r)
  end.

(** [s.split(sep)]: never empty, one more piece than separators. *)
Fixpoint split (sep : ascii) (s : string) : list string :=
  match s with
  | EmptyString => [EmptyString]
  | String c r =>
      if Ascii.eqb c sep then EmptyString :: split sep r
      else match split sep r with
           | p :: ps => String c p :: ps
           | [] => [str1 c]
           end
  end.

(** The longest prefix of [s] whose characters satisfy [p], and the rest. *)
Fixpoint span (p : ascii -> bool) (s : string) : string * string :=
  match s with
  | EmptyString => (EmptyString, EmptyString)
  | String c r =>
      if p c then let '(a, b) := span p r in (String c a, b)
      else (EmptyString, s)
  end.

(** [int(s)] for a string of decimal digits. *)
Definition int_of_digits (s : string) : N :=
  fold_left (fun acc c => (10 * acc + (code c - 48))%N) (list_ascii_of_string s) 0%N.

(** [s] without the prefix [p], when it starts with it. *)
Fixpoint drop_prefix (p s : string) : option string :=
  match p, s with
  | EmptyString, _ => Some s
  | String a p', String b s' => if Ascii.eqb a b then drop_prefix p' s' else None
  | String _ _, EmptyString => None
  end.

(** [str(n)] for an [int]. *)
Definition str_of_int (n : Z) : string := NilZero.string_of_int (Z.to_int n).

(** [s.rjust(width)] *)
Definition rjust (width : nat) (s : string) : string :=
  (string_of_list_ascii (List.repeat " "%char (width - String.length s)) ++ s)%string.

(** [enumerate(l)] *)
Definition enumerate {A} (l : list A) : list (Z * A) :=
  imap (λ i x, (Z.of_nat i, x)) l.

(** [sub in s] *)
Fixpoint contains (sub s : string) : bool :=
  String.prefix sub s ||
  match s with
  | EmptyString => false
  | String _ r => contains sub r
  end.

(** Cut [s] at its last [sep]: [(s[:i+1], s[i+1:])] with [i = s.rfind(sep)],
    and [("", s)] when there is none. *)
Fixpoint rcut (sep : ascii) (s : string) : string * string :=
  match s with
  | EmptyString => (EmptyString, EmptyString)
  | String c r =>
      let '(h, t) := rcut sep r in
      if negb (String.eqb h EmptyString) then (String c h, t)
      else if Ascii.eqb c sep then (str1 c, t)
      else (EmptyString, String c t)
  end.

Definition all_char (c : ascii) (s : string) : bool :=
  forallb (Ascii.eqb c) (list_ascii_of_string s).

(** [s.rstrip('/')] *)
Fixpoint rstrip_char (x : ascii) (s : string) : string :=
  match s with
  | EmptyString => EmptyString
  | String c r =>
      match rstrip_char x r with
      | EmptyString => if Ascii.eqb c x then EmptyString else str1 c
      | r' => String c r'
      end
  end.

(** [posixpath.dirname] *)
Definition dirname (p : string) : string :=
  let head := fst (rcut "/" p) in
  if negb (String.eqb head EmptyString) && negb (all_char "/" head)
  then rstrip_char "/" head else head.

(** [posixpath.splitext(p)[1]]: the text from the last dot of the last
    path component, unless that component has only leading dots before it. *)
Definition splitext_ext (p : string) : string :=
  let base := snd (rcut "/" p) in
  let '(stem_dot, ext) := rcut "." base in
  match stem_dot with
  | EmptyString => EmptyString
  | _ =>
      (* stem_dot ends with the last dot; the extension counts only when a
         character other than a dot comes before it *)
      if all_char "." stem_dot then EmptyString else String "." ext
  end.

(** Python's index normalisation for [l[i]]: a negative index counts from
    the end; out of range raises [IndexError] ([None]). *)
Definition norm_index (n i : Z) : option nat :=
  let j := if i <? 0 then i + n else i in
  if (0 <=? j) && (j <? n) then Some (Z.to_nat j) else None.

Definition getitem {A} (l : list A) (i : Z) : option A :=
  j ← norm_index (Z.of_nat (length l)) i; l !! j.

Definition setitem {A} (l : list A) (i : Z) (x : A) : option (list A) :=
  j ← norm_index (Z.of_nat (length l)) i; Some (<[j:=x]> l).

(** Bound normalisation of a slice [l[a:b]] (step 1). *)
Definition norm_bound (n i : Z) : Z :=
  if i <? 0 then Z.max 0 (i + n) else Z.min i n.

Definition slice {A} (l : list A) (a b : Z) : list A :=
  let n := Z.of_nat (length l) in
  let a' := norm_bound n a in
  let b' := norm_bound n b in
  take (Z.to_nat (b' - a')) (drop (Z.to_nat a') l).

End PyStr.

(** ** Effects and exceptions

    A run of the program is described by what it does to the world, in
    order (the members it reads from the archive, what it prints, the calls
    it makes on the curses screen), and by how it ends. *)

Module Eff.

Inductive exn : Type :=
| AttributeError
| KeyError
| IndexError
| UnboundLocalError
| BadZipFile
| curses_error.

Inductive effect : Type :=
| ZipOpen (file : string)
| ZipRead (name : string)
| Print (s : string)
| CursSet (visibility : Z)
| Addstr (y x : Z) (s : string)
| Clrtoeol
| Move (y x : Z)
| Clear
| Refresh
| OpenImage (name : string).

(** [Beyond]: the run goes on in a collaborator this development does not
    follow (markup outside the modelled fragment of [html.parser], the
    image viewer, the external editor). *)
Inductive result (A : Type) : Type :=
| Ok (a : A)
| Raise (e : exn)
| Beyond.
Arguments Ok {A} a.
Arguments Raise {A} e.
Arguments Beyond {A}.

#[global] Instance result_ret : MRet result := λ A a, Ok a.
#[global] Instance result_bind : MBind result := λ A B f m,
  match m with
  | Ok a => f a
  | Raise e => Raise e
  | Beyond => Beyond
  end.
#[global] Instance result_fmap : FMap result := λ A B f m,
  match m with
  | Ok a => Ok (f a)
  | Raise e => Raise e
  | Beyond => Beyond
  end.

(** [o] when it is there, the exception [e] otherwise. *)
Definition expect {A} (e : exn) (o : option A) : result A :=
  match o with
  | Some a => Ok a
  | None => Raise e
  end.

(** A computation: the effects it had, and its result. *)
Record M (A : Type) : Type := Run { log : list effect; res : result A }.
Arguments Run {A} log res.
Arguments log {A} m.
Arguments res {A} m.

#[global] Instance M_ret : MRet M := λ A a, Run [] (Ok a).
#[global] Instance M_bind : MBind M := λ A B f m,
  match res m with
  | Ok a => Run (log m ++ log (f a)) (res (f a))
  | Raise e => Run (log m) (Raise e)
  | Beyond => Run (log m) Beyond
  end.

#[global] Instance M_fmap : FMap M := λ A B f m, Run (log m) (f <$> res m).

Definition tell (l : list effect) : M unit := Run l (Ok tt).
Definition lift {A} (r : result A) : M A := Run [] r.
Definition raise {A} (e : exn) : M A := Run [] (Raise e).

(** [for x in l: body], threading a state. *)
Fixpoint for_each {A S} (l : list A) (body : S → A → M S) (s : S) : M S :=
  match l with
  | [] => mret s
  | x :: l' => s' ← body s x; for_each l' body s'
  end.

End Eff.

(** ** The markup-to-text converter: [textify]

    [textify] subclasses the standard library's [html.parser.HTMLParser]
    and constructs it with [super().__init__()], that is with the default
    [convert_charrefs=True].  The tokenizer is not part of [3pub.py]; the
    functions [unescape], [parse_starttag], [parse_endtag] and [goahead]
    below follow the library's functions of the same names on a fragment
    of HTML: text, character references [&name;] (for amp, lt, gt, quot,
    apos) and [&#N;] (printable N below 256), start tags with quoted or
    missing attribute values, [/>]-closed tags and end tags.  On any other
    input (comments, declarations, [script]/[style] content, stray [<] or
    [&], unterminated tags) the model answers [None] and says nothing. *)

Module Html.

Import PyStr.

(** The handler calls an [HTMLParser] can make on its subclass. *)
Inductive event : Type :=
| StartTag (tag : string) (attrs : list (string * option string))
| EndTag (tag : string)
| Data (data : string)
| EntityRef (name : string)
| CharRef (name : string).

(** *** [html.unescape], restricted *)

Definition named_ref (name : string) : option string :=
  if String.eqb name "amp" then Some "&"
  else if String.eqb name "lt" then Some "<"
  else if String.eqb name "gt" then Some ">"
  else if String.eqb name "quot" then Some (str1 dquote)
  else if String.eqb name "apos" then Some "'"
  else None.

Definition numeric_ref (digits : string) : option string :=
  let n := int_of_digits digits in
  if ((32 <=? n) && (n <=? 126) || (160 <=? n) && (n <=? 255))%N
  then Some (str1 (ascii_of_N n)) else None.

(** The replacement of the reference [&body;]. *)
Definition replace_charref (body : string) : option string :=
  match body with
  | String "#" ds =>
      match ds with
      | EmptyString => None
      | _ => if forallb isdigit (list_ascii_of_string ds) then numeric_ref ds else None
      end
  | _ => named_ref body
  end.

(** [ref] holds the text read since an open [&], if any. *)
Fixpoint unescape_from (ref : option string) (s : string) : option string :=
  match s, ref with
  | EmptyString, None => Some EmptyString
  | EmptyString, Some _ => None
  | String c r, None =>
      if Ascii.eqb c "&" then unescape_from (Some EmptyString) r
      else String c <$> unescape_from None r
  | String c r, Some body =>
      if Ascii.eqb c ";" then
        x ← replace_charref body;
        t ← unescape_from None r;
        Some (x ++ t)%string
      else if isalnum c || Ascii.eqb c "#" then
        unescape_from (Some (body ++ str1 c)%string) r
      else None
  end.

Definition unescape (s : string) : option string := unescape_from None s.

(** *** Tags *)

Definition is_name_char (c : ascii) : bool :=
  isalnum c || Ascii.eqb c "-" || Ascii.eqb c "_" || Ascii.eqb c ":" || Ascii.eqb c ".".

(** Elements whose content the library does not tokenize as markup. *)
Definition raw_text_elements : list string :=
  ["script"; "style"; "textarea"; "title"; "plaintext"; "xmp"; "iframe";
   "noembed"; "noframes"].

Definition is_raw_text (tag : string) : bool :=
  existsb (String.eqb tag) raw_text_elements.

(** The attributes of a start tag, from the end of the tag name on: the
    list of [(name.lower(), value)], whether the tag ends in [/>], and the
    input after the tag. *)
Fixpoint parse_attrs (fuel : nat) (s : string) (acc : list (string * option string))
  : option (list (string * option string) * bool * string) :=
  match fuel with
  | O => None
  | S fuel =>
      match lstrip s with
      | String ">" rest => Some (rev acc, false, rest)
      | String "/" (String ">" rest) => Some (rev acc, true, rest)
      | s1 =>
          let '(nm, r1) := span is_name_char s1 in
          match nm with
          | EmptyString => None
          | _ =>
              match r1 with
              | String "=" (String q r2) =>
                  if Ascii.eqb q dquote || Ascii.eqb q "'" then
                    let '(v, r3) := span (fun c => negb (Ascii.eqb c q)) r2 in
                    match r3 with
                    | String _ r4 =>
                        v' ← unescape v;
                        parse_attrs fuel r4 ((lower nm, Some v') :: acc)
                    | EmptyString => None
                    end
                  else None
              | String "=" EmptyString => None
              | _ =>
                  match lstrip r1 with
                  | String "=" _ => None
                  | _ => parse_attrs fuel r1 ((lower nm, None) :: acc)
                  end
              end
          end
      end
  end.

(** The characters that end a tag name. *)
Definition ends_tag_name (c : ascii) : bool :=
  existsb (Ascii.eqb c) ["009"; "010"; "013"; "012"; " "; "/"; ">"]%char.

(** [s] is the input after the [<] of a start tag. *)
Definition parse_starttag (s : string) : option (list event * string) :=
  let '(nm, r) := span is_name_char s in
  let tag := lower nm in
  match r with
  | String c _ =>
      if ends_tag_name c then
        '(attrs, selfclosing, rest) ← parse_attrs (S (String.length r)) r [];
        if is_raw_text tag then None
        else if (selfclosing : bool) then Some ([StartTag tag attrs; EndTag tag], rest)
        else Some ([StartTag tag attrs], rest)
      else None
  | EmptyString => None
  end.

(** [s] is the input after the [</] of an end tag. *)
Definition parse_endtag (s : string) : option (list event * string) :=
  let '(nm, r) := span is_name_char s in
  match lstrip r with
  | String ">" rest => if is_raw_text (lower nm) then None else Some ([EndTag (lower nm)], rest)
  | _ => None
  end.

(** *** [goahead]: [feed] followed by [close], with [convert_charrefs] set *)

Fixpoint goahead (fuel : nat) (rawdata : string) : option (list event) :=
  match fuel with
  | O => None
  | S fuel =>
      let '(text, rest) := span (fun c => negb (Ascii.eqb c "<")) rawdata in
      d ← match text return option (list event) with
          | EmptyString => Some []
          | _ => (λ u, [Data u]) <$> unescape text
          end;
      match rest with
      | EmptyString => Some d
      | String _ after =>
          '(evs, rest') ←
            match after with
            | String "/" (String c _ as name) =>
                if isalpha c then parse_endtag name else None
            | String c _ => if isalpha c then parse_starttag after else None
            | EmptyString => None
            end;
          tl ← goahead fuel rest';
          Some (d ++ evs ++ tl)%list
      end
  end.

Definition feed (data : string) : option (list event) :=
  goahead (S (String.length data)) data.

(** *** [textify] *)

(** A column limit: an [int], or [float("+inf")]. *)
Inductive number : Type :=
| Int (n : Z)
| PosInf.

(** [Writer]: [fl] is the content of the [io.StringIO] it writes to. *)
Record Writer : Type := mkWriter { fl : string; maxcol : number }.

Definition add_data (self : Writer) (data : string) : Writer :=
  {| fl := (fl self ++ data)%string; maxcol := maxcol self |}.

(** [Parser]: its only state is the [formatter] it forwards to. *)
Definition handle_starttag (formatter : Writer) (tag : string)
    (attrs : list (string * option string)) : Writer := formatter.

Definition handle_endtag (formatter : Writer) (tag : string) : Writer := formatter.

Definition handle_data (formatter : Writer) (data : string) : Writer :=
  add_data formatter data.

Definition handle_entityref (formatter : Writer) (name : string) : Writer :=
  handle_data formatter ("&" ++ name ++ ";")%string.

Definition handle_charref (formatter : Writer) (name : string) : Writer :=
  handle_data formatter ("&#" ++ name ++ ";")%string.

Definition handle (formatter : Writer) (e : event) : Writer :=
  match e with
  | StartTag tag attrs => handle_starttag formatter tag attrs
  | EndTag tag => handle_endtag formatter tag
  | Data data => handle_data formatter data
  | EntityRef name => handle_entityref formatter name
  | CharRef name => handle_charref formatter name
  end.

(** The text written for a sequence of handler calls. *)
Definition written (maxcol : number) (evs : list event) : string :=
  fl (fold_left handle evs (mkWriter EmptyString maxcol)).

Definition textify (html_snippet : string) (img_size : Z * Z) (maxcol : number)
  : option string :=
  written maxcol <$> feed html_snippet.

(** What one handler call adds to the output. *)
Definition contribution (e : event) : string :=
  match e with
  | StartTag _ _ | EndTag _ => EmptyString
  | Data data => data
  | EntityRef name => ("&" ++ name ++ ";")%string
  | CharRef name => ("&#" ++ name ++ ";")%string
  end.

(** The text of a sequence of handler calls. *)
Definition text_of (evs : list event) : string :=
  fold_right (λ e t, (contribution e ++ t)%string) EmptyString evs.

(** The handler calls for character references. *)
Definition is_reference (e : event) : bool :=
  match e with
  | EntityRef _ | CharRef _ => true
  | _ => false
  end.

(** *** The properties the converter is specified by *)

(** A line is an unbreakable run when it holds no whitespace. *)
Definition unbreakable (line : string) : bool :=
  forallb (λ c, negb (isspace c)) (list_ascii_of_string line).

(** Every line is at most [c] wide, except unbreakable runs. *)
Definition reflowed (c : Z) (text : string) : bool :=
  forallb (λ line, (len line <=? c) || unbreakable line) (split newline text).

(** The marker an embedded image is specified to leave in the text. *)
Definition img_marker (path alt : string) : string :=
  ("[img=" ++ str1 dquote ++ path ++ str1 dquote ++ " "
     ++ str1 dquote ++ alt ++ str1 dquote ++ "]")%string.

End Html.

(** ** The package indexer: [table_of_contents]

    The archive and the markup parser are collaborators of the program:
    [ZipFile.read] is a partial map from member names to bytes, and
    [BeautifulSoup(bytes, 'html.parser')] a function from bytes to a tree
    of tags (names and attribute names in lower case) and strings. *)

Module Indexer.

Import PyStr Eff.

Inductive node : Type :=
| Tag (name : string) (attrs : gmap string string) (contents : list node)
| NavigableString (s : string).

(** All nodes below [n], in document order. *)
Fixpoint descendants (n : node) : list node :=
  match n with
  | Tag _ _ cs =>
      (fix below (l : list node) : list node :=
         match l with
         | [] => []
         | c :: l' => (c :: descendants c) ++ below l'
         end) cs
  | NavigableString _ => []
  end%list.

Definition named (name : string) (n : node) : bool :=
  match n with
  | Tag nm _ _ => String.eqb nm name
  | NavigableString _ => false
  end.

(** [n.findAll(name)], also written [n(name)]. *)
Definition findAll (name : string) (n : node) : list node :=
  List.filter (named name) (descendants n).

(** [n.find(name)], also written [n.name]; [None] is Python's [None]. *)
Definition find (name : string) (n : node) : option node :=
  head (findAll name n).

(** [n.attrs] *)
Definition attrs_of (n : node) : gmap string string :=
  match n with
  | Tag _ a _ => a
  | NavigableString _ => ∅
  end.

(** [n.text] *)
Fixpoint text (n : node) : string :=
  match n with
  | Tag _ _ cs =>
      (fix all (l : list node) : string :=
         match l with
         | [] => EmptyString
         | c :: l' => (text c ++ all l')%string
         end) cs
  | NavigableString s => s
  end.

(** [d[key]] *)
Definition item (d : gmap string string) (key : string) : result string :=
  expect KeyError (d !! key).

(** [obj.attr] on the result of a [find]: [AttributeError] on [None]. *)
Definition deref {A} (o : option A) : result A := expect AttributeError o.

Definition ncx_media_type : string := "application/x-dtbncx+xml".

(** A yielded pair [(title, src)]; [src] is [None] for the title entry. *)
Definition entry : Type := string * option string.

(** The loop over the manifest: [x] maps ids to paths, [ncx] is the
    navigation document's path. *)
Definition manifest_step (basedir : string)
    (acc : result (gmap string string * option string)) (it : node)
  : result (gmap string string * option string) :=
  '(x, ncx) ← acc;
  let d := attrs_of it in
  href ← item d "href";
  id ← item d "id";
  let x := <[id := (basedir ++ href)%string]> x in
  mt ← item d "media-type";
  if String.eqb mt ncx_media_type then Ok (x, Some (basedir ++ href)%string)
  else Ok (x, ncx).

(** The loop over the spine: [y] is the reading order. *)
Definition spine_step (x : gmap string string)
    (acc : result (list string)) (it : node) : result (list string) :=
  y ← acc;
  idref ← item (attrs_of it) "idref";
  p ← item x idref;
  Ok (y ++ [p])%list.

(** The key a navigation point is filed under: its [src] with any anchor
    text stripped off. *)
Definition navpoint_key (navpoint : node) : result string :=
  content ← deref (find "content" navpoint);
  k ← deref (attrs_of content !! "src");
  Ok (split_head "#" k).

(** The loop over the navigation points: [z] maps paths to labels. *)
Definition navpoint_step (acc : result (gmap string string)) (navpoint : node)
  : result (gmap string string) :=
  z ← acc;
  k ← navpoint_key navpoint;
  if String.eqb k EmptyString then Ok z
  else
    navlabel ← deref (find "navlabel" navpoint);
    Ok (<[k := text navlabel]> z).

Definition labels (navpoints : list node) : result (gmap string string) :=
  fold_left navpoint_step navpoints (Ok ∅).

(** One yielded pair per reading-order path. *)
Definition output (z : gmap string string) (section : string) : entry :=
  match z !! section with
  | Some label => (label, Some section)
  | None => (EmptyString, Some (strip section))
  end.

(** What the loop leaves in [z] under [key]: the label of the last
    navigation point whose key is literally [key], which is not empty. *)
Definition filed (navpoints : list node) (key label : string) : Prop :=
  key ≠ EmptyString ∧
  ∃ before navpoint after,
    navpoints = (before ++ navpoint :: after)%list ∧
    navpoint_key navpoint = Ok key ∧
    text <$> find "navlabel" navpoint = Some label ∧
    Forall (λ later, navpoint_key later ≠ Ok key) after.

Section WithArchive.

(** [fl.read(name)]: [None] is the [KeyError] of a missing member. *)
Variable read : string → option string.
Variable BeautifulSoup : string → node.

(** [BeautifulSoup(fl.read(name), 'html.parser')] *)
Definition parse (name : string) : M node :=
  tell [ZipRead name];;
  lift (BeautifulSoup <$> expect KeyError (read name)).

(** The package document: its title, the reading order [y] and the
    path [ncx] of the navigation document. *)
Definition package : M (string * list string * option string) :=
  soup ← parse "META-INF/container.xml";
  opf ← lift (rootfile ← deref (find "rootfile" soup);
              item (attrs_of rootfile) "full-path");
  let basedir := dirname opf in
  let basedir :=
    if String.eqb basedir EmptyString then basedir else (basedir ++ "/")%string in
  soup ← parse opf;
  title ← lift (deref (find "dc:title" soup));
  '(x, ncx) ← lift (manifest ← deref (find "manifest" soup);
                    fold_left (manifest_step basedir) (findAll "item" manifest)
                      (Ok (∅, None)));
  y ← lift (spine ← deref (find "spine" soup);
            fold_left (spine_step x) (findAll "itemref" spine) (Ok []));
  mret (text title, y, ncx).

(** The navigation points read when [ncx] is set. *)
Definition navpoints (ncx : option string) : M (list node) :=
  match ncx with
  | Some ncx =>
      if String.eqb ncx EmptyString then mret []
      else soup ← parse ncx; mret (findAll "navpoint" soup)
  | None => mret []
  end.

(** The list of everything the generator yields, or the exception that
    ends it. *)
Definition table_of_contents : M (list entry) :=
  '(title, y, ncx) ← package;
  nps ← navpoints ncx;
  z ← lift (labels nps);
  mret ((title, None) :: map (output z) y).

End WithArchive.

End Indexer.

(** ** The reader: [check_epub], [dump_epub], [list_chaps], [curses_epub] *)

Module Reader.

Import PyStr Eff Html Indexer.

(** Key codes of [curses] and [curses.ascii]. *)
Definition KEY_DOWN : Z := 258.
Definition KEY_UP : Z := 259.
Definition KEY_LEFT : Z := 260.
Definition KEY_RIGHT : Z := 261.
Definition KEY_NPAGE : Z := 338.
Definition KEY_PPAGE : Z := 339.
Definition HT : Z := 9.
Definition ESC : Z := 27.
(** [ord(c)] *)
Definition ord (c : ascii) : Z := Z.of_N (code c).

Definition ESCAPE_KEYS : list Z := [ord "q"; ESC].
Definition TOC_DOWN_LINE_KEYS : list Z := [KEY_DOWN].
Definition TOC_UP_LINE_KEYS : list Z := [KEY_UP].
Definition TOC_DOWN_PAGE_KEYS : list Z := [KEY_NPAGE].
Definition TOC_UP_PAGE_KEYS : list Z := [KEY_PPAGE].
Definition CHAPTER_DOWN_PAGE_KEYS : list Z := [KEY_DOWN].
Definition CHAPTER_UP_PAGE_KEYS : list Z := [KEY_UP].
Definition CHAPTER_DOWN_LINE_KEYS : list Z := [KEY_NPAGE].
Definition CHAPTER_UP_LINE_KEYS : list Z := [KEY_PPAGE].
Definition CHAPTERTOCSWITCH_KEYS : list Z := [HT; KEY_RIGHT; KEY_LEFT].

(** [ch in keys] *)
Definition isin (ch : Z) (keys : list Z) : bool := existsb (Z.eqb ch) keys.

(** The regular expression of the chapter loop, matched at the start of
    [s]: an opening [[img=], a quoted non-empty path (group 1), a space, a
    quoted alternative text (group 2) and a closing bracket; neither group
    holds a quote.  The value is group 1. *)
Definition match_img (s : string) : option string :=
  r ← drop_prefix ("[img=" ++ str1 dquote)%string s;
  let '(path, r) := span (λ c, negb (Ascii.eqb c dquote)) r in
  if String.eqb path EmptyString then None
  else
    r ← drop_prefix (str1 dquote ++ " " ++ str1 dquote)%string r;
    let '(alt, r) := span (λ c, negb (Ascii.eqb c dquote)) r in
    _ ← drop_prefix (str1 dquote ++ "]")%string r;
    Some path.

(** [re.search] of that expression in [line]: group 1 of the leftmost match. *)
Fixpoint search_img (line : string) : option string :=
  match match_img line with
  | Some path => Some path
  | None =>
      match line with
      | String _ r => search_img r
      | EmptyString => None
      end
  end.

(** What one iteration of a loop reads from the terminal: the size
    [screen.getmaxyx()] and the key [screen.getch()]. *)
Record input : Type := Input { maxy : Z; maxx : Z; ch : Z }.

(** The variables of [curses_epub] that outlive an iteration. *)
Record state : Type := State { start : Z; cursor_row : Z; chaps_pos : list Z }.

(** Where the program waits for its next key: in the outer (TOC) loop, in
    the inner (chapter) loop with the lines [chap], or nowhere because
    [curses_epub] has returned. *)
Inductive control : Type :=
| Toc (s : state)
| Chapter (s : state) (chap : list string)
| Returned.

(** The keys that move the table of contents. *)
Definition toc_navigation_keys : list Z :=
  TOC_DOWN_LINE_KEYS ++ TOC_UP_LINE_KEYS ++ TOC_DOWN_PAGE_KEYS ++ TOC_UP_PAGE_KEYS.

(** The keys that scroll a chapter. *)
Definition chapter_scroll_keys : list Z :=
  CHAPTER_DOWN_PAGE_KEYS ++ CHAPTER_UP_PAGE_KEYS ++
  CHAPTER_DOWN_LINE_KEYS ++ CHAPTER_UP_LINE_KEYS.

(** The invariants of the table-of-contents view, for [n] entries on a
    terminal of [maxy] rows. *)
Definition toc_inv (n maxy : Z) (s : state) : Prop :=
  0 <= start s <= Z.max 0 (n - maxy) ∧
  0 <= cursor_row s < maxy ∧
  start s + cursor_row s < n.

(** [v] clamped into the interval from [lo] to [hi]. *)
Definition clamp (lo hi v : Z) : Z := Z.max lo (Z.min hi v).

(** The archive members a run read. *)
Definition reads (l : list effect) : list string :=
  omap (λ e, match e with ZipRead name => Some name | _ => None end) l.

Section World.

(** [os.path.isfile] *)
Variable isfile : string → bool.
(** [zipfile.ZipFile(fl, 'r')]: the [read] of the archive, if it opens. *)
Variable ZipFile : string → option (string → option string).
Variable BeautifulSoup : string → node.
(** [str(tag)]: the markup of a tag. *)
Variable decode : node → string.
(** Whether [screen.addstr(y, x, s)] succeeds ([curses.error] otherwise). *)
Variable addstr_ok : Z → Z → string → bool.
(** The module's flag [images]: whether [fabulous] and [Pillow] were
    imported. *)
Variable images : bool.

(** [str(soup.find(name))] *)
Definition str_find (name : string) (soup : node) : string :=
  match find name soup with
  | Some n => decode n
  | None => "None"
  end.

(** [True], or [None] which is as good as [False]. *)
Definition check_epub (fl : string) : bool :=
  isfile fl && String.eqb (lower (splitext_ext fl)) ".epub".

(** [textify(str(BeautifulSoup(fl.read(src)).find('body')), img_size, maxcol)] *)
Definition chapter_text (read : string → option string) (src : string)
    (img_size : Z * Z) (maxcol : number) : M string :=
  soup ← parse read BeautifulSoup src;
  match textify (str_find "body" soup) img_size maxcol with
  | Some t => mret t
  | None => Run [] Beyond
  end.

(** [src] is neither [None] nor empty. *)
Definition truthy (src : option string) : option string :=
  match src with
  | Some s => if String.eqb s EmptyString then None else Some s
  | None => None
  end.

Definition dump_chapter (read : string → option string) (maxcol : number)
    (_ : unit) (chap : entry) : M unit :=
  let '(title, src) := chap in
  tell [Print title; Print (repeat_char "-" (String.length title))];;
  match truthy src with
  | Some src =>
      t ← chapter_text read src (80, 45) maxcol;
      tell [Print t]
  | None => mret tt
  end;;
  tell [Print (str1 newline)].

Definition dump_epub (fl : string) (maxcol : number) : M unit :=
  if negb (check_epub fl) then mret tt
  else
    tell [ZipOpen fl];;
    read ← lift (expect BadZipFile (ZipFile fl));
    chaps ← table_of_contents read BeautifulSoup;
    for_each chaps (dump_chapter read maxcol) tt.

(** The row index of the last entry drawn; the loop variable is unbound
    when nothing was drawn. *)
Definition list_chaps (chaps : list entry) (start length : Z) : M Z :=
  let rows := enumerate (slice chaps start (start + length)) in
  for_each rows
    (λ start '(i, (title, src)),
       (if start =? 0 then tell [Addstr i 0 ("      " ++ title)%string]
        else tell [Clrtoeol;
                   Addstr i 0 (rjust 5 (str_of_int start) ++ " " ++ strip title)%string]);;
       mret (start + 1))
    start;;
  tell [Refresh];;
  match last rows with
  | Some (i, _) => mret i
  | None => raise UnboundLocalError
  end.

(** [open_image(screen, name, s)]: without the imaging modules a message
    on the top row, whose [curses.error] nothing catches; with them the
    image goes to the viewer. *)
Definition open_image (name : string) : M unit :=
  if images then Run [OpenImage name] Beyond
  else
    tell [Addstr 0 0 "missing PIL or fabulous"];;
    if addstr_ok 0 0 "missing PIL or fabulous" then mret tt else raise curses_error.

Section Session.

Variable read : string → option string.
Variable chaps : list entry.

(** One iteration of the outer loop. *)
Definition toc_iteration (s : state) (i : input) : M control :=
  let '(State start cursor_row chaps_pos) := s in
  let '(Input maxy maxx ch) := i in
  tell [CursSet 1];;
  let cursor_row := if cursor_row >=? maxy then maxy - 1 else cursor_row in
  len_chaps ← list_chaps chaps start maxy;
  tell [Move cursor_row 0];;
  if isin ch ESCAPE_KEYS then mret Returned
  else if isin ch TOC_DOWN_LINE_KEYS then
    if start <? Z.of_nat (length chaps) - maxy then
      tell [Clear];; mret (Toc (State (start + 1) cursor_row chaps_pos))
    else if (cursor_row <? maxy - 1) && (cursor_row <? len_chaps) then
      mret (Toc (State start (cursor_row + 1) chaps_pos))
    else mret (Toc (State start cursor_row chaps_pos))
  else if isin ch TOC_UP_LINE_KEYS then
    if start >? 0 then
      tell [Clear];; mret (Toc (State (start - 1) cursor_row chaps_pos))
    else if cursor_row >? 0 then
      mret (Toc (State start (cursor_row - 1) chaps_pos))
    else mret (Toc (State start cursor_row chaps_pos))
  else if isin ch TOC_DOWN_PAGE_KEYS then
    if start + maxy - 1 <? Z.of_nat (length chaps) then
      let start := start + (maxy - 1) in
      let start := if len_chaps <? maxy then Z.of_nat (length chaps) - maxy else start in
      tell [Clear];; mret (Toc (State start cursor_row chaps_pos))
    else mret (Toc (State start cursor_row chaps_pos))
  else if isin ch TOC_UP_PAGE_KEYS then
    if start >? 0 then
      let start := start - (maxy - 1) in
      let start := if start <? 0 then 0 else start in
      tell [Clear];; mret (Toc (State start cursor_row chaps_pos))
    else mret (Toc (State start cursor_row chaps_pos))
  else if isin ch CHAPTERTOCSWITCH_KEYS then
    chosen ← lift (expect IndexError (getitem chaps (start + cursor_row)));
    chap ← match truthy (snd chosen) return M (list string) with
           | Some src =>
               split newline <$> chapter_text read src (maxy, maxx) (Int maxx)
           | None => mret []
           end;
    tell [Clear; CursSet 0];;
    mret (Chapter (State start cursor_row chaps_pos) chap)
  else mret (Toc (State start cursor_row chaps_pos)).

(** The [i] key: every image found on the page is read and shown. *)
Definition show_image (_ : unit) (img : string) : M unit :=
  tell [ZipRead img];;
  match read img with
  | Some _ => open_image img
  | None =>
      tell [Addstr 0 0 "image not found"];;
      if addstr_ok 0 0 "image not found" then mret tt else raise curses_error
  end.

(** One iteration of the inner loop. *)
Definition chapter_iteration (s : state) (chap : list string) (i : input)
  : M control :=
  let '(State start cursor_row chaps_pos) := s in
  let '(Input maxy maxx ch) := i in
  let here := start + cursor_row in
  pos ← lift (expect IndexError (getitem chaps_pos here));
  images ← for_each (enumerate (slice chap pos (pos + maxy)))
    (λ images '(i, line),
       tell [Addstr i 0 line];;
       if addstr_ok i 0 line then
         match search_img line with
         | Some path => mret (images ++ [path])%list
         | None => mret images
         end
       else mret images)
    [];
  tell [Refresh];;
  let set (v : Z) : M control :=
    chaps_pos ← lift (expect IndexError (setitem chaps_pos here v));
    tell [Clear];; mret (Chapter (State start cursor_row chaps_pos) chap) in
  let stay : M control := mret (Chapter s chap) in
  if isin ch ESCAPE_KEYS then mret Returned
  else if isin ch CHAPTERTOCSWITCH_KEYS then tell [Clear];; mret (Toc s)
  else if isin ch CHAPTER_DOWN_PAGE_KEYS then
    if pos + maxy - 1 <? Z.of_nat (length chap) then set (pos + (maxy - 1)) else stay
  else if isin ch CHAPTER_UP_PAGE_KEYS then
    if pos >? 0 then
      let pos := pos - (maxy - 1) in
      set (if pos <? 0 then 0 else pos)
    else stay
  else if isin ch CHAPTER_DOWN_LINE_KEYS then
    if pos + maxy - 1 <? Z.of_nat (length chap) then set (pos + 1) else stay
  else if isin ch CHAPTER_UP_LINE_KEYS then
    if pos >? 0 then set (pos - 1) else stay
  else if ch =? ord "i" then for_each images show_image tt;; stay
  else if ch =? ord "e" then Run [] Beyond
  else stay.

Definition iteration (c : control) (i : input) : M control :=
  match c with
  | Toc s => toc_iteration s i
  | Chapter s chap => chapter_iteration s chap i
  | Returned => mret Returned
  end.

(** The loops, for as long as there is input. *)
Definition loop (c : control) (inputs : list input) : M control :=
  for_each inputs iteration c.

End Session.

Definition initial (chaps : list entry) : state :=
  State 0 0 (map (λ _, 0) chaps).

Definition curses_epub (fl : string) (inputs : list input) : M control :=
  if negb (check_epub fl) then mret Returned
  else
    tell [ZipOpen fl];;
    read ← lift (expect BadZipFile (ZipFile fl));
    chaps ← table_of_contents read BeautifulSoup;
    loop read chaps (Toc (initial chaps)) inputs.

End World.

End Reader.

(** ** A small book

    An archive with a title, three chapters in reading order and a
    navigation document that labels the first and the third.  The bytes of
    a member are stood for by the member's name; [BeautifulSoup] maps them
    to the tree they parse to, and [markup] writes a tree back as text. *)

Module Sample.

Import PyStr Eff Html Indexer Reader.

Definition attributes (l : list (string * string)) : gmap string string :=
  list_to_map l.

(** [&], [<] and [>] as entities. *)
Fixpoint escape (s : string) : string :=
  match s with
  | EmptyString => EmptyString
  | String c r =>
      ((if Ascii.eqb c "&" then "&amp;"
        else if Ascii.eqb c "<" then "&lt;"
        else if Ascii.eqb c ">" then "&gt;"
        else str1 c) ++ escape r)%string
  end.

Definition attribute_markup (kv : string * string) : string :=
  (" " ++ fst kv ++ "=" ++ str1 dquote ++ escape (snd kv) ++ str1 dquote)%string.

Definition void_elements : list string := ["img"; "br"; "hr"].

Fixpoint markup (n : node) : string :=
  match n with
  | NavigableString s => escape s
  | Tag name a cs =>
      let open := ("<" ++ name ++ String.concat EmptyString
                     (map attribute_markup (map_to_list a)))%string in
      match cs with
      | [] =>
          if existsb (String.eqb name) void_elements then (open ++ "/>")%string
          else (open ++ "></" ++ name ++ ">")%string
      | _ =>
          (open ++ ">" ++
           (fix all (l : list node) : string :=
              match l with
              | [] => EmptyString
              | c :: l' => (markup c ++ all l')%string
              end) cs
           ++ "</" ++ name ++ ">")%string
      end
  end.

Definition document (cs : list node) : node := Tag "[document]" ∅ cs.

Definition container_xml : node :=
  document [Tag "container" ∅ [Tag "rootfiles" ∅
    [Tag "rootfile" (attributes [("full-path", "content.opf")]) []]]].

Definition manifest_item (id href media : string) : node :=
  Tag "item" (attributes [("id", id); ("href", href); ("media-type", media)]) [].

Definition itemref (idref : string) : node :=
  Tag "itemref" (attributes [("idref", idref)]) [].

(** The package document; [href2] is the second chapter's file name as the
    manifest spells it. *)
Definition content_opf (href2 : string) : node :=
  document [Tag "package" ∅
    [Tag "metadata" ∅ [Tag "dc:title" ∅ [NavigableString "A Book"]];
     Tag "manifest" ∅
       [manifest_item "ncx" "toc.ncx" ncx_media_type;
        manifest_item "c1" "ch1.html" "application/xhtml+xml";
        manifest_item "c2" href2 "application/xhtml+xml";
        manifest_item "c3" "ch3.html" "application/xhtml+xml"];
     Tag "spine" ∅ [itemref "c1"; itemref "c2"; itemref "c3"]]].

Definition navpoint (label src : string) : node :=
  Tag "navpoint" ∅
    [Tag "navlabel" ∅ [Tag "text" ∅ [NavigableString label]];
     Tag "content" (attributes [("src", src)]) []].

Definition toc_ncx : node :=
  document [Tag "ncx" ∅ [Tag "navmap" ∅
    [navpoint "One" "ch1.html#start"; navpoint "Three" "ch3.html"]]].

Definition lines14 : string :=
  String.concat (str1 newline)
    ["Hello & welcome"; "2"; "3"; "4"; "5"; "6"; "7"; "8"; "9"; "10"; "11";
     "12"; "13"; "14"].

Definition ch1_html : node :=
  document [Tag "html" ∅ [Tag "body" ∅ [Tag "p" ∅ [NavigableString lines14]]]].

Definition ch2_html : node :=
  document [Tag "html" ∅ [Tag "body" ∅ [Tag "p" ∅ [NavigableString "aaa bbb"]]]].

Definition ch3_html : node :=
  document [Tag "html" ∅ [Tag "body" ∅
    [Tag "p" ∅ [NavigableString "See ";
                Tag "img" (attributes [("src", "images/cover.jpg")]) [];
                NavigableString " here"]]]].

Definition members : list string :=
  ["META-INF/container.xml"; "content.opf"; "toc.ncx"; "ch1.html"; "ch2.html";
   "ch3.html"].

Definition read (name : string) : option string :=
  if existsb (String.eqb name) members then Some name else None.

Definition BeautifulSoup_with (href2 : string) (bytes : string) : node :=
  if String.eqb bytes "META-INF/container.xml" then container_xml
  else if String.eqb bytes "content.opf" then content_opf href2
  else if String.eqb bytes "toc.ncx" then toc_ncx
  else if String.eqb bytes "ch1.html" then ch1_html
  else if String.eqb bytes "ch2.html" then ch2_html
  else if String.eqb bytes "ch3.html" then ch3_html
  else document [].

Definition BeautifulSoup : string → node := BeautifulSoup_with "ch2.html".

Definition isfile (fl : string) : bool :=
  String.eqb fl "book.epub" || String.eqb fl "notes.txt".

Definition ZipFile (fl : string) : option (string → option string) :=
  if String.eqb fl "book.epub" then Some read else None.

Definition addstr_ok (y x : Z) (s : string) : bool := true.

(** [import Pillow] fails: the package installs the module [PIL]. *)
Definition images : bool := false.

(** The table of contents of the book. *)
Definition chaps : list entry :=
  [("A Book", None); ("One", Some "ch1.html"); (EmptyString, Some "ch2.html");
   ("Three", Some "ch3.html")].

Definition dump_epub := Reader.dump_epub isfile ZipFile BeautifulSoup markup.
Definition curses_epub :=
  Reader.curses_epub isfile ZipFile BeautifulSoup markup addstr_ok images.
Definition loop := Reader.loop BeautifulSoup markup addstr_ok images read.

(** A key pressed on a terminal of [rows] lines and 80 columns. *)
Definition key (rows : Z) (ch : Z) : input := Input rows 80 ch.

End Sample.

(** ** The same book, with its package below a directory

    The container names [OEBPS/content.opf] as the package document; the
    references of the package document and of the navigation document are
    relative to that directory, as they are in the small book. *)

Module Nested.

Import PyStr Eff Html Indexer.

Definition container_xml : node :=
  Sample.document [Tag "container" ∅ [Tag "rootfiles" ∅
    [Tag "rootfile" (Sample.attributes [("full-path", "OEBPS/content.opf")]) []]]].

Definition members : list string :=
  ["META-INF/container.xml"; "OEBPS/content.opf"; "OEBPS/toc.ncx"; "OEBPS/ch1.html";
   "OEBPS/ch2.html"; "OEBPS/ch3.html"].

Definition read (name : string) : option string :=
  if existsb (String.eqb name) members then Some name else None.

Definition BeautifulSoup (bytes : string) : node :=
  if String.eqb bytes "META-INF/container.xml" then container_xml
  else if String.eqb bytes "OEBPS/content.opf" then Sample.content_opf "ch2.html"
  else if String.eqb bytes "OEBPS/toc.ncx" then Sample.toc_ncx
  else if String.eqb bytes "OEBPS/ch1.html" then Sample.ch1_html
  else if String.eqb bytes "OEBPS/ch2.html" then Sample.ch2_html
  else if String.eqb bytes "OEBPS/ch3.html" then Sample.ch3_html
  else Sample.document [].

End Nested.

(** ** The table of contents as it is specified

    Not a translation of the code: the reading of the specification the
    indexer is compared with.  The navigation document supplies a label
    for a reading-order path when one of its navigation points refers to
    that archive member: the content source of the point, with its anchor
    stripped and resolved against the base directory of the package like
    every reference of the manifest, is that path.  A path without a
    label has the empty title, and no path is dropped. *)

Module Specified.

Import PyStr Eff Indexer.

(** The archive member a navigation point refers to. *)
Definition target (basedir : string) (navpoint : node) : option string :=
  content ← find "content" navpoint;
  src ← attrs_of content !! "src";
  Some (basedir ++ split_head "#" src)%string.

Definition refers_to (basedir path : string) (navpoint : node) : bool :=
  match target basedir navpoint with
  | Some member => String.eqb member path
  | None => false
  end.

(** The label the navigation points supply for [path], if any; of several
    points for one path the last counts. *)
Definition label_of (basedir : string) (navpoints : list node) (path : string)
  : option string :=
  navpoint ← last (List.filter (refers_to basedir path) navpoints);
  text <$> find "navlabel" navpoint.

(** The title entry, then one entry per reading-order path. *)
Definition toc (basedir title : string) (y : list string) (navpoints : list node)
  : list entry :=
  (title, None) ::
  map (λ path, (default EmptyString (label_of basedir navpoints path), Some path)) y.

End Specified.

(** ** Notions the further properties are stated with *)

Module Notions.

Import PyStr Eff Html Indexer Reader.

(** An item reference of the spine resolves to [path] through the
    manifest's map [x]. *)
Definition resolves (x : gmap string string) (it : node) (path : string) : Prop :=
  ∃ idref, attrs_of it !! "idref" = Some idref ∧ x !! idref = Some path.

(** A string without the character [x]. *)
Definition without (x : ascii) (s : string) : bool :=
  forallb (λ c, negb (Ascii.eqb c x)) (list_ascii_of_string s).

(** The rows written by a run: the line and the text of every [addstr]. *)
Definition written_rows (l : list effect) : list (Z * string) :=
  omap (λ e, match e with Addstr y _ s => Some (y, s) | _ => None end) l.

(** A package document without a navigation document, and the parser of
    the small book with it in place of the book's own. *)
Definition plain_opf : node :=
  Sample.document [Tag "package" ∅
    [Tag "metadata" ∅ [Tag "dc:title" ∅ [NavigableString "A Book"]];
     Tag "manifest" ∅
       [Sample.manifest_item "c1" "ch1.html" "application/xhtml+xml";
        Sample.manifest_item "c3" "ch3.html" "application/xhtml+xml"];
     Tag "spine" ∅ [Sample.itemref "c1"; Sample.itemref "c3"]]].

Definition plain_BeautifulSoup (bytes : string) : node :=
  if String.eqb bytes "content.opf" then plain_opf else Sample.BeautifulSoup bytes.

End Notions.

(** * Verification *)

(** ** Computations *)

Module EffFacts.

Import PyStr Eff.

Lemma res_bind {A B} (m : M A) (f : A → M B) :
  res (m ≫= f) =
  match res m with
  | Ok a => res (f a)
  | Raise e => Raise e
  | Beyond => Beyond
  end.
Proof. unfold mbind, M_bind. destruct (res m); reflexivity. Qed.

Lemma log_bind_ok {A B} (m : M A) (f : A → M B) a :
  res m = Ok a → log (m ≫= f) = (log m ++ log (f a))%list.
Proof. intros H. unfold mbind, M_bind. rewrite H. reflexivity. Qed.

Lemma bind_run_ok {A B} l (a : A) (f : A → M B) :
  Run l (Ok a) ≫= f = Run (l ++ log (f a)) (res (f a)).
Proof. reflexivity. Qed.

Lemma bind_tell {B} l (f : unit → M B) :
  tell l ≫= f = Run (l ++ log (f tt)) (res (f tt)).
Proof. reflexivity. Qed.

Lemma M_eta {A} (m : M A) : Run (log m) (res m) = m.
Proof. destruct m; reflexivity. Qed.

Lemma bind_mret {A B} (a : A) (f : A → M B) : mret a ≫= f = f a.
Proof. unfold mret, M_ret. rewrite bind_run_ok. apply M_eta. Qed.

Lemma for_each_cons {A S} (x : A) l (body : S → A → M S) s :
  for_each (x :: l) body s = body s x ≫= for_each l body.
Proof. reflexivity. Qed.

(** A loop whose body never raises computes a fold. *)
Lemma for_each_total {A S} (body : S → A → M S) (f : S → A → S) l s :
  (∀ s x, res (body s x) = Ok (f s x)) →
  res (for_each l body s) = Ok (fold_left f l s).
Proof.
  intros Hbody. revert s. induction l as [|x l IH]; intros s; [reflexivity|].
  rewrite for_each_cons, res_bind, Hbody. apply IH.
Qed.

End EffFacts.

(** ** The converter *)

Module HtmlFacts.

Import PyStr Eff Html.

Lemma append_empty_r (s : string) : (s ++ EmptyString)%string = s.
Proof.
  induction s as [|c s IH]; [reflexivity|].
  change (String c (s ++ EmptyString) = String c s). now rewrite IH.
Qed.

Lemma append_assoc (a b c : string) : ((a ++ b) ++ c = a ++ (b ++ c))%string.
Proof.
  induction a as [|x a IH]; [reflexivity|].
  change (String x ((a ++ b) ++ c) = String x (a ++ (b ++ c)))%string. now rewrite IH.
Qed.

Lemma handle_fl (w : Writer) (e : event) :
  fl (handle w e) = (fl w ++ contribution e)%string.
Proof.
  destruct e; cbn [handle contribution];
    unfold handle_starttag, handle_endtag, handle_entityref, handle_charref,
      handle_data, add_data; cbn [fl]; rewrite ?append_empty_r; reflexivity.
Qed.

Lemma handle_maxcol (w : Writer) (e : event) : maxcol (handle w e) = maxcol w.
Proof. destruct e; reflexivity. Qed.

(** The writer appends the contributions in order; its column limit plays
    no part. *)
Lemma fold_handle_fl (evs : list event) (w : Writer) :
  fl (fold_left handle evs w) = (fl w ++ text_of evs)%string.
Proof.
  revert w. induction evs as [|e evs IH]; intros w; simpl.
  - now rewrite append_empty_r.
  - rewrite IH, handle_fl, append_assoc. reflexivity.
Qed.

Lemma written_concat (c : number) (evs : list event) :
  written c evs = text_of evs.
Proof. unfold written. now rewrite fold_handle_fl. Qed.

Lemma textify_ignores_maxcol s sz sz' (c c' : number) :
  textify s sz c = textify s sz' c'.
Proof. unfold textify. destruct (feed s); simpl; [|reflexivity]. now rewrite !written_concat. Qed.

(** The two reference handlers do write the reference back as text. *)
Lemma handle_entityref_fl (w : Writer) (name : string) :
  fl (handle_entityref w name) = (fl w ++ "&" ++ name ++ ";")%string.
Proof. reflexivity. Qed.

Lemma handle_charref_fl (w : Writer) (name : string) :
  fl (handle_charref w name) = (fl w ++ "&#" ++ name ++ ";")%string.
Proof. reflexivity. Qed.

(** With [convert_charrefs] set the tokenizer never calls them. *)
Lemma parse_starttag_no_reference s evs rest :
  parse_starttag s = Some (evs, rest) → forallb (λ e, negb (is_reference e)) evs = true.
Proof.
  unfold parse_starttag. destruct (span is_name_char s) as [nm r].
  destruct r as [|c r]; [discriminate|]. destruct (ends_tag_name c); [|discriminate].
  destruct (parse_attrs _ _ []) as [[[attrs sc] rest']|]; simpl; [|discriminate].
  destruct (is_raw_text _); [discriminate|].
  destruct sc; intros [= <- <-]; reflexivity.
Qed.

Lemma parse_endtag_no_reference s evs rest :
  parse_endtag s = Some (evs, rest) → forallb (λ e, negb (is_reference e)) evs = true.
Proof.
  unfold parse_endtag. destruct (span is_name_char s) as [nm r].
  destruct (lstrip r) as [|c r']; [discriminate|].
  destruct (Ascii.eqb_spec c ">") as [->|Hc].
  - destruct (is_raw_text _); [discriminate|]. intros [= <- <-]; reflexivity.
  - intros H. exfalso. destruct c as [[] [] [] [] [] [] [] []]; try discriminate H.
    now apply Hc.
Qed.

Lemma goahead_no_reference fuel s evs :
  goahead fuel s = Some evs → forallb (λ e, negb (is_reference e)) evs = true.
Proof.
  revert s evs. induction fuel as [|fuel IH]; intros s evs; simpl; [discriminate|].
  destruct (span _ s) as [text rest].
  set (d := match text with EmptyString => _ | _ => _ end).
  assert (Hd : ∀ l, d = Some l → forallb (λ e, negb (is_reference e)) l = true).
  { intros l. subst d. destruct text.
    - intros [= <-]; reflexivity.
    - destruct (unescape _); simpl; [|discriminate]. intros [= <-]; reflexivity. }
  destruct d as [l|]; simpl; [|discriminate]. specialize (Hd l eq_refl).
  destruct rest as [|c0 after]; [intros [= <-]; exact Hd|].
  set (t := match after with EmptyString => _ | _ => _ end).
  assert (Ht : ∀ evs' rest', t = Some (evs', rest') →
                forallb (λ e, negb (is_reference e)) evs' = true).
  { intros evs' rest'. subst t. destruct after as [|c after']; [discriminate|].
    destruct (Ascii.eqb_spec c "/") as [->|Hc].
    - destruct after' as [|c' a'']; [simpl; discriminate|].
      destruct (isalpha c'); [apply parse_endtag_no_reference|discriminate].
    - assert (Hm : match c with
                   | "/"%char => match after' with
                                | String c' _ => if isalpha c' then parse_endtag after' else None
                                | EmptyString => if isalpha c then parse_starttag (String c after') else None
                                end
                   | _ => if isalpha c then parse_starttag (String c after') else None
                   end = if isalpha c then parse_starttag (String c after') else None).
      { destruct c as [[] [] [] [] [] [] [] []]; try reflexivity. now contradict Hc. }
      intros H. cbv zeta in H.
      destruct (isalpha c) eqn:Ha.
      + apply (parse_starttag_no_reference (String c after') evs' rest').
        rewrite <- H. clear -Hc Ha.
        destruct c as [[] [] [] [] [] [] [] []]; try reflexivity. now contradict Hc.
      + exfalso. clear -Hc Ha H.
        destruct c as [[] [] [] [] [] [] [] []]; simpl in *; try discriminate; try now contradict Hc. }
  destruct t as [[evs' rest']|]; simpl; [|discriminate].
  specialize (Ht _ _ eq_refl).
  destruct (goahead fuel rest') as [tl|] eqn:Htl; simpl; [|discriminate].
  intros [= <-]. rewrite !forallb_app, Hd, Ht, (IH _ _ Htl). reflexivity.
Qed.

Lemma feed_no_reference s evs :
  feed s = Some evs → forallb (λ e, negb (is_reference e)) evs = true.
Proof. apply goahead_no_reference. Qed.

(** C1 (defect of the code).  The converter does not reflow: with the
    column limit 3 the fragment [<p>aaa bbb</p>] comes out as the single
    line [aaa bbb], seven columns wide and breakable at its blank, where
    the specification asks for lines of at most 3 columns. *)
Theorem textify_does_not_reflow :
  textify "<p>aaa bbb</p>" (80, 45) (Int 3) = Some "aaa bbb" ∧
  split newline "aaa bbb" = ["aaa bbb"] ∧
  len "aaa bbb" = 7 ∧
  unbreakable "aaa bbb" = false ∧
  reflowed 3 "aaa bbb" = false.
Proof. repeat split; reflexivity. Qed.

(** C2 (defect of the code).  The converter decodes character references:
    the fragment [<p>Hello &amp; welcome &#169;</p>] comes out with the
    characters [&] and code point 169, and holds neither [&amp;] nor
    [&#169;], where the specification asks for the references to be kept
    as text. *)
Theorem textify_decodes_references :
  let out := ("Hello & welcome " ++ str1 (ascii_of_N 169))%string in
  textify "<p>Hello &amp; welcome &#169;</p>" (80, 45) PosInf = Some out ∧
  contains "&amp;" out = false ∧
  contains "&#169;" out = false.
Proof. repeat split; reflexivity. Qed.

(** C5 (defect of the code).  The converter drops embedded images: the
    fragment [<p>See <img src='images/cover.jpg' alt='Cover'/> here</p>]
    comes out as [See  here], without the marker for the image that the
    specification asks for. *)
Theorem textify_drops_images :
  feed "<p>See <img src='images/cover.jpg' alt='Cover'/> here</p>" =
    Some [StartTag "p" []; Data "See ";
          StartTag "img" [("src", Some "images/cover.jpg"); ("alt", Some "Cover")]; EndTag "img";
          Data " here"; EndTag "p"] ∧
  textify "<p>See <img src='images/cover.jpg' alt='Cover'/> here</p>" (80, 45) PosInf =
    Some "See  here" ∧
  contains (img_marker "images/cover.jpg" "Cover") "See  here" = false.
Proof. repeat split; reflexivity. Qed.

End HtmlFacts.

(** ** The indexer *)

Module IndexerFacts.

Import PyStr Eff Indexer EffFacts.

Lemma labels_snoc nps np : labels (nps ++ [np]) = navpoint_step (labels nps) np.
Proof. unfold labels. now rewrite fold_left_app. Qed.

(** What one more navigation point does to the labels. *)
Lemma navpoint_step_Ok acc np z :
  navpoint_step acc np = Ok z →
  ∃ z0 k, acc = Ok z0 ∧ navpoint_key np = Ok k ∧
    ((k = EmptyString ∧ z = z0) ∨
     (k ≠ EmptyString ∧ ∃ nl, find "navlabel" np = Some nl ∧ z = <[k := text nl]> z0)).
Proof.
  unfold navpoint_step. destruct acc as [z0| |]; [|discriminate..]. cbn.
  destruct (navpoint_key np) as [k| |]; [|discriminate..]. cbn.
  destruct (String.eqb_spec k EmptyString) as [->|Hk].
  - intros [= <-]. exists z0, EmptyString. auto.
  - destruct (find "navlabel" np) as [nl|]; [|discriminate]. cbn.
    intros [= <-]. exists z0, k. split; [reflexivity|]. split; [reflexivity|].
    right. eauto.
Qed.

(** What [labels] holds is what the navigation points filed. *)
Lemma labels_spec nps z path label :
  labels nps = Ok z → z !! path = Some label ↔ filed nps path label.
Proof.
  revert z. induction nps as [|np nps IH] using rev_ind; intros z.
  - intros [= <-]. rewrite lookup_empty. split; [discriminate|].
    intros (_ & before & x & after & H & _). now destruct before.
  - rewrite labels_snoc.
    intros (z0 & k & Hz0 & Hk & Hcase)%navpoint_step_Ok.
    specialize (IH z0 Hz0).
    assert (Hold : z0 !! path = Some label → navpoint_key np ≠ Ok path →
                   filed (nps ++ [np]) path label).
    { intros (Hne & before & x & after & -> & Hx & Hl & Hafter)%IH Hnp.
      split; [exact Hne|]. exists before, x, (after ++ [np])%list.
      rewrite <- app_assoc. split; [reflexivity|]. split; [exact Hx|]. split; [exact Hl|].
      apply Forall_app. split; [exact Hafter|]. now constructor. }
    assert (Hinv : filed (nps ++ [np]) path label →
              (navpoint_key np = Ok path ∧ path ≠ EmptyString ∧
               text <$> find "navlabel" np = Some label) ∨
              (navpoint_key np ≠ Ok path ∧ filed nps path label)).
    { intros (Hne & before & x & after & Heq & Hx & Hl & Hafter).
      destruct after as [|a after _] using rev_ind.
      - apply app_inj_tail in Heq as [-> ->]. left. auto.
      - rewrite app_comm_cons, app_assoc in Heq. apply app_inj_tail in Heq as [-> ->].
        apply Forall_app in Hafter as [Hafter Hnp]. inversion_clear Hnp.
        right. split; [assumption|]. split; [exact Hne|]. eauto 10. }
    split.
    + intros Hz. destruct Hcase as [[-> ->] | (Hne & nl & Hnl & ->)].
      * apply Hold; [exact Hz|]. rewrite Hk. intros [= <-].
        apply IH in Hz as [Hp _]. now apply Hp.
      * destruct (decide (k = path)) as [->|Hkp].
        -- rewrite lookup_insert_eq in Hz. injection Hz as <-.
           split; [exact Hne|]. exists nps, np, []. rewrite Hnl. repeat split; auto.
        -- rewrite lookup_insert_ne in Hz by exact Hkp.
           apply Hold; [exact Hz|]. rewrite Hk. congruence.
    + intros [(Hnp & Hne & Hl) | (Hnp & Hsup)]%Hinv.
      * rewrite Hk in Hnp. injection Hnp as ->.
        destruct Hcase as [[-> _] | (_ & nl & Hnl & ->)]; [done|].
        rewrite lookup_insert_eq. rewrite Hnl in Hl. exact Hl.
      * apply IH in Hsup. destruct Hcase as [[_ ->] | (_ & nl & _ & ->)]; [exact Hsup|].
        rewrite lookup_insert_ne; [exact Hsup|]. rewrite Hk in Hnp. congruence.
Qed.

Section WithArchive.

Variable read : string → option string.
Variable BeautifulSoup : string → node.

(** The table of contents is the title entry followed by one entry per
    reading-order path, none dropped: [(label, path)] when a label is
    filed under the very text of the path, and otherwise
    [('', path.strip())], the path without the white space around it. *)
Lemma table_of_contents_output title y ncx nps z l1 l2 :
  package read BeautifulSoup = Run l1 (Ok (title, y, ncx)) →
  navpoints read BeautifulSoup ncx = Run l2 (Ok nps) →
  labels nps = Ok z →
  ∃ rest,
    table_of_contents read BeautifulSoup =
      Run (l1 ++ l2) (Ok ((title, None) :: rest)) ∧
    length rest = length y ∧
    ∀ i path, y !! i = Some path →
      (∀ label, filed nps path label → rest !! i = Some (label, Some path)) ∧
      ((∀ label, ¬ filed nps path label) →
         rest !! i = Some (EmptyString, Some (strip path))).
Proof.
  intros Hpkg Hnav Hz. exists (map (output z) y).
  split; [|split].
  - unfold table_of_contents. rewrite Hpkg. cbn -[navpoints labels].
    rewrite Hnav. cbn -[labels]. rewrite Hz. cbn. now rewrite !app_nil_r.
  - apply length_map.
  - intros i path Hi. rewrite list_lookup_fmap, Hi. cbn. unfold output. split.
    + intros label Hs. apply (labels_spec nps z path label Hz) in Hs. now rewrite Hs.
    + intros Hnone. destruct (z !! path) as [label|] eqn:Hl; [|reflexivity].
      apply (labels_spec nps z path label Hz) in Hl. now destruct (Hnone label).
Qed.

End WithArchive.

(** A reading-order path with white space around it and no label is
    yielded stripped, not as it is. *)
Example padded_path_is_stripped :
  res (package Sample.read (Sample.BeautifulSoup_with "ch2.html ")) =
    Ok ("A Book", ["ch1.html"; "ch2.html "; "ch3.html"], Some "toc.ncx") ∧
  res (table_of_contents Sample.read (Sample.BeautifulSoup_with "ch2.html ")) =
    Ok [("A Book", None); ("One", Some "ch1.html"); (EmptyString, Some "ch2.html");
        ("Three", Some "ch3.html")] ∧
  (EmptyString, Some "ch2.html") ≠ (EmptyString, Some "ch2.html ").
Proof. split; [reflexivity|]. split; [reflexivity | discriminate]. Qed.

(** The scenario of the specification: three chapters, labels for the
    first and the third.  With the package at the top of the archive the
    indexer yields the table of contents that is specified. *)
Example three_chapters :
  res (table_of_contents Sample.read Sample.BeautifulSoup) = Ok Sample.chaps ∧
  Specified.toc EmptyString "A Book" ["ch1.html"; "ch2.html"; "ch3.html"]
    (findAll "navpoint" Sample.toc_ncx) = Sample.chaps.
Proof. split; reflexivity. Qed.

(** C9 (defect of the code).  The same scenario with the package below
    the directory [OEBPS]: the reading order is [OEBPS/ch1.html],
    [OEBPS/ch2.html], [OEBPS/ch3.html], and the navigation document
    [OEBPS/toc.ncx] labels the first (with an anchor) and the third, so
    the table of contents specified is the title, [('One', path1)],
    [('', path2)], [('Three', path3)].  The indexer yields the three
    paths with the empty title: the labels are filed under [ch1.html] and
    [ch3.html], the sources as they are written, while the paths they are
    looked up with carry the base directory. *)
Theorem labels_are_lost_below_a_directory :
  res (package Nested.read Nested.BeautifulSoup) =
    Ok ("A Book", ["OEBPS/ch1.html"; "OEBPS/ch2.html"; "OEBPS/ch3.html"],
        Some "OEBPS/toc.ncx") ∧
  res (navpoints Nested.read Nested.BeautifulSoup (Some "OEBPS/toc.ncx")) =
    Ok (findAll "navpoint" Sample.toc_ncx) ∧
  Specified.toc "OEBPS/" "A Book" ["OEBPS/ch1.html"; "OEBPS/ch2.html"; "OEBPS/ch3.html"]
    (findAll "navpoint" Sample.toc_ncx) =
    [("A Book", None); ("One", Some "OEBPS/ch1.html");
     (EmptyString, Some "OEBPS/ch2.html"); ("Three", Some "OEBPS/ch3.html")] ∧
  labels (findAll "navpoint" Sample.toc_ncx) =
    Ok (<["ch3.html" := "Three"]> (<["ch1.html" := "One"]> ∅)) ∧
  res (table_of_contents Nested.read Nested.BeautifulSoup) =
    Ok [("A Book", None); (EmptyString, Some "OEBPS/ch1.html");
        (EmptyString, Some "OEBPS/ch2.html"); (EmptyString, Some "OEBPS/ch3.html")].
Proof. repeat split; reflexivity. Qed.

End IndexerFacts.

(** ** The reader *)

Module ReaderFacts.

Import PyStr Eff Html Indexer Reader EffFacts.

Lemma norm_bound_range n i : 0 <= n → 0 <= norm_bound n i <= n.
Proof. unfold norm_bound. destruct (Z.ltb_spec i 0); lia. Qed.

Lemma slice_length {A} (l : list A) a b :
  length (slice l a b) =
  Z.to_nat (norm_bound (Z.of_nat (length l)) b - norm_bound (Z.of_nat (length l)) a).
Proof.
  unfold slice. rewrite length_take, length_drop.
  pose proof (norm_bound_range (Z.of_nat (length l)) a ltac:(lia)).
  pose proof (norm_bound_range (Z.of_nat (length l)) b ltac:(lia)).
  lia.
Qed.

Lemma enumerate_snoc {A} (l : list A) x :
  enumerate (l ++ [x]) = (enumerate l ++ [(Z.of_nat (length l), x)])%list.
Proof. unfold enumerate. rewrite imap_app. simpl. now rewrite Nat.add_0_r. Qed.

Lemma last_enumerate {A} (l : list A) :
  last (enumerate l) = (λ x, (Z.of_nat (length l) - 1, x)) <$> last l.
Proof.
  destruct l as [|y l] using rev_ind; [reflexivity|].
  rewrite enumerate_snoc, !last_snoc, length_app. simpl. do 2 f_equal. lia.
Qed.

(** [list_chaps] returns the number of rows it drew, less one, and raises
    when it drew none. *)
Lemma list_chaps_res (chaps : list entry) start length :
  res (list_chaps chaps start length) =
  match slice chaps start (start + length) with
  | [] => Raise UnboundLocalError
  | rows => Ok (Z.of_nat (List.length rows) - 1)
  end.
Proof.
  unfold list_chaps. rewrite res_bind.
  erewrite (for_each_total _ (λ st _, st + 1)).
  2:{ intros st [i [title src]]. destruct (st =? 0); reflexivity. }
  rewrite bind_tell. cbn [res]. rewrite last_enumerate.
  destruct (slice chaps start (start + length)) as [|r rows] using rev_ind; [reflexivity|].
  rewrite last_snoc. cbn. destruct (rows ++ [r])%list eqn:E; [now destruct rows|].
  reflexivity.
Qed.

Lemma list_chaps_run (chaps : list entry) start length :
  0 <= start < Z.of_nat (List.length chaps) → 1 <= length →
  ∃ l, list_chaps chaps start length =
       Run l (Ok (Z.min length (Z.of_nat (List.length chaps) - start) - 1)).
Proof.
  intros Hs Hl. exists (log (list_chaps chaps start length)).
  rewrite <- (M_eta (list_chaps _ _ _)) at 1. f_equal.
  rewrite list_chaps_res.
  pose proof (slice_length chaps start (start + length)) as Hlen.
  unfold norm_bound in Hlen.
  destruct (Z.ltb_spec (start + length) 0); [lia|].
  destruct (Z.ltb_spec start 0); [lia|].
  destruct (slice chaps start (start + length)) as [|r rows]; simpl in *; [lia|].
  f_equal. lia.
Qed.

Lemma run_of_res {A} (m : M A) (a : A) : res m = Ok a → ∃ l, m = Run l (Ok a).
Proof. intros H. exists (log m). rewrite <- H. symmetry. apply M_eta. Qed.

Lemma isin_cons ch k keys : isin ch (k :: keys) = (ch =? k) || isin ch keys.
Proof. reflexivity. Qed.

Lemma isin_toc_navigation ch :
  isin ch toc_navigation_keys = true →
  ch = KEY_DOWN ∨ ch = KEY_UP ∨ ch = KEY_NPAGE ∨ ch = KEY_PPAGE.
Proof.
  unfold toc_navigation_keys, isin. simpl. rewrite !orb_true_iff, !Z.eqb_eq.
  intuition discriminate || auto.
Qed.

Lemma isin_switch ch :
  isin ch CHAPTERTOCSWITCH_KEYS = true → ch = HT ∨ ch = KEY_RIGHT ∨ ch = KEY_LEFT.
Proof.
  unfold CHAPTERTOCSWITCH_KEYS, isin. simpl. rewrite !orb_true_iff, !Z.eqb_eq.
  intuition discriminate || auto.
Qed.

Lemma isin_chapter_scroll ch :
  isin ch chapter_scroll_keys = true →
  ch = KEY_DOWN ∨ ch = KEY_UP ∨ ch = KEY_NPAGE ∨ ch = KEY_PPAGE.
Proof.
  unfold chapter_scroll_keys, isin. simpl. rewrite !orb_true_iff, !Z.eqb_eq.
  intuition discriminate || auto.
Qed.

Lemma log_bind {A B} (m : M A) (f : A → M B) :
  log (m ≫= f) =
  (log m ++ match res m with Ok a => log (f a) | _ => [] end)%list.
Proof. unfold mbind, M_bind. destruct (res m); cbn [log]; now rewrite ?app_nil_r. Qed.

Lemma reads_app l1 l2 : reads (l1 ++ l2) = (reads l1 ++ reads l2)%list.
Proof. apply omap_app. Qed.

Lemma reads_cons e l : reads (e :: l) = (reads [e] ++ reads l)%list.
Proof. apply (reads_app [e] l). Qed.

(** A loop whose body reads nothing reads nothing. *)
Lemma for_each_reads {A S} (body : S → A → M S) l s :
  (∀ s x, reads (log (body s x)) = []) → reads (log (for_each l body s)) = [].
Proof.
  intros Hbody. revert s. induction l as [|x l IH]; intros s; [reflexivity|].
  rewrite for_each_cons, log_bind, reads_app, Hbody.
  destruct (res (body s x)); simpl; auto.
Qed.

Lemma list_chaps_reads (chaps : list entry) start length :
  reads (log (list_chaps chaps start length)) = [].
Proof.
  unfold list_chaps. rewrite log_bind, reads_app, for_each_reads.
  2:{ intros st [i [title src]]. destruct (st =? 0); reflexivity. }
  destruct (res (for_each _ _ _)); [|reflexivity..].
  rewrite bind_tell. cbn [log]. destruct (last _) as [[i ?]|]; reflexivity.
Qed.

Lemma slice_nil {A} a b : slice (@nil A) a b = [].
Proof. unfold slice. now rewrite drop_nil, take_nil. Qed.

Lemma getitem_Some {A} (l : list A) i x :
  getitem l i = Some x →
  ∃ j, norm_index (Z.of_nat (length l)) i = Some j ∧ l !! j = Some x.
Proof.
  unfold getitem. destruct (norm_index _ i) as [j|]; simpl; [|discriminate].
  intros H. exists j. auto.
Qed.

Lemma setitem_same {A} (l : list A) i x : getitem l i = Some x → setitem l i x = Some l.
Proof.
  intros (j & Hj & Hx)%getitem_Some. unfold setitem. rewrite Hj. simpl.
  now rewrite list_insert_id.
Qed.

Lemma setitem_is_Some {A} (l : list A) i x y :
  getitem l i = Some x → ∃ l', setitem l i y = Some l'.
Proof.
  intros (j & Hj & Hx)%getitem_Some. unfold setitem. rewrite Hj. simpl. eauto.
Qed.

Lemma getitem_in_range {A} (l : list A) i :
  0 <= i < Z.of_nat (length l) → ∃ x, getitem l i = Some x.
Proof.
  intros Hi. unfold getitem, norm_index.
  destruct (Z.ltb_spec i 0); [lia|].
  destruct (Z.leb_spec 0 i); [|lia]. destruct (Z.ltb_spec i (Z.of_nat (length l))); [|lia].
  simpl. destruct (lookup_lt_is_Some_2 l (Z.to_nat i)) as [x Hx]; [lia|]. eauto.
Qed.

(** Reading off the result of a sequence of statements. *)
Lemma bind_lift_ok {A B} (a : A) (f : A → M B) : lift (Ok a) ≫= f = f a.
Proof. unfold lift. rewrite bind_run_ok. apply M_eta. Qed.

Lemma res_tell l : res (tell l) = Ok tt.
Proof. reflexivity. Qed.

Lemma res_lift {A} (r : result A) : res (lift r) = r.
Proof. reflexivity. Qed.

Lemma res_mret {A} (a : A) : res (mret a) = Ok a.
Proof. reflexivity. Qed.

Lemma res_run {A} l (r : result A) : res (Run l r) = r.
Proof. reflexivity. Qed.

(** Deciding the membership tests on a known key. *)
Ltac keys :=
  repeat match goal with
         | |- context [isin ?k ?ks] =>
             let b := eval vm_compute in (isin k ks) in
             change (isin k ks) with b
         | |- context [Z.eqb ?k (ord ?c)] =>
             let b := eval vm_compute in (Z.eqb k (ord c)) in
             change (Z.eqb k (ord c)) with b
         end;
  cbn beta iota.

Ltac res_steps :=
  repeat (first [rewrite res_bind | rewrite res_tell | rewrite res_lift
                | rewrite res_mret | rewrite res_run];
          cbn beta iota).

Section Session.

Variable BeautifulSoup : string → node.
Variable decode : node → string.
Variable addstr_ok : Z → Z → string → bool.
Variable images : bool.
Variable read : string → option string.
Variable chaps : list entry.

Abbreviation n := (Z.of_nat (length chaps)).
Abbreviation toc_iteration := (Reader.toc_iteration BeautifulSoup decode read chaps).
Abbreviation chapter_iteration := (Reader.chapter_iteration addstr_ok images read).
Abbreviation loop := (Reader.loop BeautifulSoup decode addstr_ok images read chaps).

(** What each navigation key does to a table of contents that satisfies
    its invariants. *)
Lemma toc_navigation_res s maxy maxx ch :
  toc_inv n maxy s → 1 <= maxy →
  ch = KEY_DOWN ∨ ch = KEY_UP ∨ ch = KEY_NPAGE ∨ ch = KEY_PPAGE →
  ∃ start' row',
    res (toc_iteration s (Input maxy maxx ch)) =
      Ok (Toc (State start' row' (chaps_pos s))) ∧
    (ch = KEY_DOWN →
       (start s < n - maxy → start' = start s + 1 ∧ row' = cursor_row s) ∧
       (n - maxy <= start s → start' = start s ∧
          (cursor_row s < maxy - 1 → start s + cursor_row s < n - 1 →
             row' = cursor_row s + 1) ∧
          (maxy - 1 <= cursor_row s ∨ n - 1 <= start s + cursor_row s →
             row' = cursor_row s))) ∧
    (ch = KEY_UP →
       (0 < start s → start' = start s - 1 ∧ row' = cursor_row s) ∧
       (start s = 0 → start' = 0 ∧ row' = Z.max 0 (cursor_row s - 1))) ∧
    (ch = KEY_NPAGE →
       row' = cursor_row s ∧
       (start s + maxy - 1 < n → start' = n - maxy) ∧
       (n <= start s + maxy - 1 → start' = start s)) ∧
    (ch = KEY_PPAGE →
       row' = cursor_row s ∧ start' = Z.max 0 (start s - (maxy - 1))).
Proof.
  intros (Hs & Hc & Hsc) Hmaxy Hch. destruct s as [st row pos]. simpl in *.
  destruct (list_chaps_run chaps st maxy ltac:(lia) Hmaxy) as [l Hl].
  unfold Reader.toc_iteration. res_steps. rewrite Hl. cbn [res].
  rewrite Z.geb_leb. destruct (Z.leb_spec maxy row) as [?|_]; [lia|].
  res_steps.
  destruct Hch as [-> | [-> | [-> | ->]]]; keys.
  - destruct (Z.ltb_spec st (n - maxy)); res_steps.
    + eexists _, _; split; [reflexivity|]. repeat split; intros; try discriminate; lia.
    + destruct (Z.ltb_spec row (maxy - 1)), (Z.ltb_spec row (Z.min maxy (n - st) - 1));
        cbn [andb]; eexists _, _; (split; [reflexivity|]);
        repeat split; intros; try discriminate; lia.
  - rewrite !Z.gtb_ltb. destruct (Z.ltb_spec 0 st); res_steps.
    + eexists _, _; split; [reflexivity|]. repeat split; intros; try discriminate; lia.
    + destruct (Z.ltb_spec 0 row);
        eexists _, _; (split; [reflexivity|]);
        repeat split; intros; try discriminate; lia.
  - destruct (Z.ltb_spec (st + maxy - 1) n); res_steps.
    + destruct (Z.ltb_spec (Z.min maxy (n - st) - 1) maxy); [|lia].
      eexists _, _; split; [reflexivity|]. repeat split; intros; try discriminate; lia.
    + eexists _, _; split; [reflexivity|]. repeat split; intros; try discriminate; lia.
  - rewrite !Z.gtb_ltb. destruct (Z.ltb_spec 0 st); res_steps.
    + destruct (Z.ltb_spec (st - (maxy - 1)) 0);
        eexists _, _; (split; [reflexivity|]);
        repeat split; intros; try discriminate; lia.
    + eexists _, _; split; [reflexivity|]. repeat split; intros; try discriminate; lia.
Qed.

Lemma toc_navigation_step s maxy maxx ch :
  toc_inv n maxy s → 1 <= maxy → isin ch toc_navigation_keys = true →
  ∃ l s', toc_iteration s (Input maxy maxx ch) = Run l (Ok (Toc s')) ∧
          toc_inv n maxy s' ∧ chaps_pos s' = chaps_pos s.
Proof.
  intros Hinv Hmaxy Hch. apply isin_toc_navigation in Hch.
  destruct (toc_navigation_res s maxy maxx ch Hinv Hmaxy Hch)
    as (st' & row' & Hres & Hdown & Hup & Hnpage & Hppage).
  destruct (run_of_res _ _ Hres) as [l Hl]. exists l, (State st' row' (chaps_pos s)).
  split; [exact Hl|]. split; [|reflexivity].
  destruct Hinv as (Hs & Hc & Hsc). unfold toc_inv. simpl.
  destruct Hch as [-> | [-> | [-> | ->]]].
  - destruct (Hdown eq_refl) as [H1 H2].
    destruct (Z.lt_ge_cases (start s) (n - maxy)) as [Hlt|Hge]; [specialize (H1 Hlt); lia|].
    destruct (H2 Hge) as (-> & H3 & H4).
    destruct (Z.lt_ge_cases (cursor_row s) (maxy - 1)) as [Ha|Ha];
      [destruct (Z.lt_ge_cases (start s + cursor_row s) (n - 1)) as [Hb|Hb]|].
    + rewrite (H3 Ha Hb). lia.
    + rewrite H4 by lia. lia.
    + rewrite H4 by lia. lia.
  - destruct (Hup eq_refl) as [H1 H2].
    destruct (Z.lt_ge_cases 0 (start s)) as [Hlt|Hge]; [specialize (H1 Hlt); lia|].
    specialize (H2 ltac:(lia)). lia.
  - destruct (Hnpage eq_refl) as (-> & H1 & H2).
    destruct (Z.lt_ge_cases (start s + maxy - 1) n) as [Hlt|Hge];
      [specialize (H1 Hlt) | specialize (H2 Hge)]; lia.
  - destruct (Hppage eq_refl) as (-> & ->). lia.
Qed.

Lemma loop_cons c i inputs :
  loop c (i :: inputs) =
  Reader.iteration BeautifulSoup decode addstr_ok images read chaps c i ≫= λ c', loop c' inputs.
Proof. reflexivity. Qed.

Lemma toc_navigation_loop maxy inputs s :
  toc_inv n maxy s → 1 <= maxy →
  Forall (λ i, Reader.maxy i = maxy ∧ isin (ch i) toc_navigation_keys = true) inputs →
  ∃ l s', loop (Toc s) inputs = Run l (Ok (Toc s')) ∧
          toc_inv n maxy s' ∧ chaps_pos s' = chaps_pos s.
Proof.
  intros Hinv Hmaxy Hall. revert s Hinv.
  induction Hall as [|[my mx k] inputs [Hmy Hk] _ IH]; intros s Hinv.
  - exists [], s. repeat split; try apply Hinv. 
  - simpl in Hmy, Hk. subst my.
    destruct (toc_navigation_step s maxy mx k Hinv Hmaxy Hk) as (l1 & s1 & H1 & Hinv1 & Hp1).
    destruct (IH s1 Hinv1) as (l2 & s2 & H2 & Hinv2 & Hp2).
    exists (l1 ++ l2)%list, s2. rewrite loop_cons. cbn [Reader.iteration].
    rewrite H1, bind_run_ok, H2. cbn [log res]. repeat split; try apply Hinv2. congruence.
Qed.

(** C6.  From the initial state, any sequence of line and page keys on a
    table of at least one entry and a terminal of at least one row leaves
    the program in the table-of-contents view, with the window start
    between 0 and max(0, len(toc) - height) and the cursor on an entry. *)
Theorem toc_scroll_invariant (maxy : Z) (inputs : list input) :
  1 <= n → 1 <= maxy →
  Forall (λ i, Reader.maxy i = maxy ∧ isin (ch i) toc_navigation_keys = true) inputs →
  ∃ l s, loop (Toc (initial chaps)) inputs = Run l (Ok (Toc s)) ∧
         0 <= start s <= Z.max 0 (n - maxy) ∧
         start s + cursor_row s < n.
Proof.
  intros Hn Hmaxy Hall.
  destruct (toc_navigation_loop maxy inputs (initial chaps)) as (l & s & H & Hinv & _);
    [unfold toc_inv; simpl; lia | exact Hmaxy | exact Hall |].
  exists l, s. split; [exact H|]. destruct Hinv as (? & ? & ?). auto.
Qed.

(** The loop that draws the page and collects its images never raises. *)
Lemma draw_total (rows : list (Z * string)) :
  ∃ images,
    res (for_each rows
           (λ images '(i, line),
              tell [Addstr i 0 line];;
              if addstr_ok i 0 line then
                match search_img line with
                | Some path => mret (images ++ [path])%list
                | None => mret images
                end
              else mret images) []) = Ok images.
Proof.
  eexists. apply (for_each_total _
    (λ images '(i, line),
       if addstr_ok i 0 line then
         match search_img line with
         | Some path => (images ++ [path])%list
         | None => images
         end
       else images)).
  intros imgs [i line]. rewrite bind_tell. cbn [res].
  destruct (addstr_ok i 0 line); [destruct (search_img line)|]; reflexivity.
Qed.

(** What each scroll key does to the offset of the chapter on screen. *)
Lemma chapter_scroll_res s chap maxy maxx ch pos :
  getitem (chaps_pos s) (start s + cursor_row s) = Some pos →
  ch = KEY_DOWN ∨ ch = KEY_UP ∨ ch = KEY_NPAGE ∨ ch = KEY_PPAGE →
  ∃ pos' chaps_pos',
    res (chapter_iteration s chap (Input maxy maxx ch)) =
      Ok (Chapter (State (start s) (cursor_row s) chaps_pos') chap) ∧
    setitem (chaps_pos s) (start s + cursor_row s) pos' = Some chaps_pos' ∧
    let L := Z.of_nat (length chap) in
    (ch = KEY_DOWN →
       (pos + maxy - 1 < L → pos' = pos + (maxy - 1)) ∧
       (L <= pos + maxy - 1 → pos' = pos)) ∧
    (ch = KEY_UP →
       (0 < pos → pos' = Z.max 0 (pos - (maxy - 1))) ∧
       (pos <= 0 → pos' = pos)) ∧
    (ch = KEY_NPAGE →
       (pos + maxy - 1 < L → pos' = pos + 1) ∧
       (L <= pos + maxy - 1 → pos' = pos)) ∧
    (ch = KEY_PPAGE →
       (0 < pos → pos' = pos - 1) ∧
       (pos <= 0 → pos' = pos)).
Proof.
  intros Hpos Hch. destruct s as [st row cp]. cbn [start cursor_row chaps_pos] in *.
  unfold Reader.chapter_iteration. res_steps. rewrite Hpos. cbn [expect]. res_steps.
  destruct (draw_total (enumerate (slice chap pos (pos + maxy)))) as [imgs ->].
  res_steps.
  assert (Hstay : setitem cp (st + row) pos = Some cp) by now apply setitem_same.
  assert (Hset : ∀ v, ∃ cp', setitem cp (st + row) v = Some cp' ∧
            res (chaps_pos ← lift (expect IndexError (setitem cp (st + row) v));
                 tell [Clear];; mret (Chapter (State st row chaps_pos) chap)) =
            Ok (Chapter (State st row cp') chap)).
  { intros v. destruct (setitem_is_Some cp (st + row) pos v Hpos) as [cp' Hcp'].
    exists cp'. split; [exact Hcp'|]. res_steps. rewrite Hcp'. reflexivity. }
  destruct Hch as [-> | [-> | [-> | ->]]]; keys; rewrite ?Z.gtb_ltb.
  - destruct (Z.ltb_spec (pos + maxy - 1) (Z.of_nat (length chap))).
    + destruct (Hset (pos + (maxy - 1))) as (cp' & Hcp' & ->).
      eexists _, _; split; [reflexivity|]. split; [exact Hcp'|].
      repeat split; intros; try discriminate; lia.
    + eexists _, _; split; [reflexivity|]. split; [exact Hstay|].
      repeat split; intros; try discriminate; lia.
  - destruct (Z.ltb_spec 0 pos).
    + destruct (Hset (if pos - (maxy - 1) <? 0 then 0 else pos - (maxy - 1)))
        as (cp' & Hcp' & ->).
      eexists _, _; split; [reflexivity|]. split; [exact Hcp'|].
      destruct (Z.ltb_spec (pos - (maxy - 1)) 0);
        repeat split; intros; try discriminate; lia.
    + eexists _, _; split; [reflexivity|]. split; [exact Hstay|].
      repeat split; intros; try discriminate; lia.
  - destruct (Z.ltb_spec (pos + maxy - 1) (Z.of_nat (length chap))).
    + destruct (Hset (pos + 1)) as (cp' & Hcp' & ->).
      eexists _, _; split; [reflexivity|]. split; [exact Hcp'|].
      repeat split; intros; try discriminate; lia.
    + eexists _, _; split; [reflexivity|]. split; [exact Hstay|].
      repeat split; intros; try discriminate; lia.
  - destruct (Z.ltb_spec 0 pos).
    + destruct (Hset (pos - 1)) as (cp' & Hcp' & ->).
      eexists _, _; split; [reflexivity|]. split; [exact Hcp'|].
      repeat split; intros; try discriminate; lia.
    + eexists _, _; split; [reflexivity|]. split; [exact Hstay|].
      repeat split; intros; try discriminate; lia.
Qed.

Lemma list_chaps_run_quiet start length :
  0 <= start < n → 1 <= length →
  ∃ l k, list_chaps chaps start length = Run l (Ok k) ∧ reads l = [].
Proof.
  intros Hs Hl. destruct (list_chaps_run chaps start length Hs Hl) as [l H].
  exists l, (Z.min length (n - start) - 1). split; [exact H|].
  pose proof (list_chaps_reads chaps start length) as Hr. now rewrite H in Hr.
Qed.

(** C3 (amended).  On an entry without content the switch key reads
    nothing from the archive and leaves the window, the cursor and the
    scroll offsets as they are, but it does enter the chapter view, with
    no lines to show; the next switch key leads back to the table of
    contents in the same state. *)
Theorem switch_on_header s maxy maxx ch title src :
  toc_inv n maxy s → length (chaps_pos s) = length chaps →
  isin ch CHAPTERTOCSWITCH_KEYS = true →
  getitem chaps (start s + cursor_row s) = Some (title, src) →
  truthy src = None →
  (∃ l, toc_iteration s (Input maxy maxx ch) = Run l (Ok (Chapter s [])) ∧
        reads l = []) ∧
  (∀ maxy' maxx' ch', isin ch' CHAPTERTOCSWITCH_KEYS = true →
     ∃ l', chapter_iteration s [] (Input maxy' maxx' ch') = Run l' (Ok (Toc s)) ∧
           reads l' = []).
Proof.
  intros (Hs & Hc & Hsc) Hlen Hch Hget Hsrc. destruct s as [st row cp].
  cbn [start cursor_row chaps_pos] in *. split.
  - destruct (list_chaps_run_quiet st maxy ltac:(lia) ltac:(lia)) as (l0 & k & Hl & Hq).
    unfold Reader.toc_iteration. rewrite Hl, Z.geb_leb.
    destruct (Z.leb_spec maxy row) as [?|_]; [lia|].
    apply isin_switch in Hch. 
    destruct Hch as [-> | [-> | ->]]; keys; rewrite Hget; cbn [expect];
      rewrite bind_lift_ok; cbn [snd]; rewrite Hsrc; cbn; (eexists; split; [reflexivity|]);
      rewrite reads_cons, reads_app, Hq; reflexivity.
  - intros maxy' maxx' ch' Hch'.
    destruct (getitem_in_range cp (st + row) ltac:(lia)) as [pos Hpos].
    unfold Reader.chapter_iteration. rewrite Hpos. cbn [expect].
    rewrite bind_lift_ok, slice_nil.
    apply isin_switch in Hch'.
    destruct Hch' as [-> | [-> | ->]]; keys; cbn; (eexists; split; reflexivity).
Qed.

(** C4 (amended).  In the chapter view the down-arrow key adds
    height - 1 to the offset when offset + height - 1 is below the number
    of lines and the up-arrow key takes height - 1 off a positive offset,
    stopping at 0; the PgDn key adds 1 under the same guard and the PgUp
    key takes 1 off a positive offset.  Otherwise the offset stays, and
    no other offset, nor the window or the cursor, changes. *)
Theorem chapter_scroll s chap maxy maxx ch pos :
  getitem (chaps_pos s) (start s + cursor_row s) = Some pos →
  isin ch chapter_scroll_keys = true →
  ∃ l pos' chaps_pos',
    chapter_iteration s chap (Input maxy maxx ch) =
      Run l (Ok (Chapter (State (start s) (cursor_row s) chaps_pos') chap)) ∧
    setitem (chaps_pos s) (start s + cursor_row s) pos' = Some chaps_pos' ∧
    let L := Z.of_nat (length chap) in
    (ch = KEY_DOWN →
       (pos + maxy - 1 < L → pos' = pos + (maxy - 1)) ∧
       (L <= pos + maxy - 1 → pos' = pos)) ∧
    (ch = KEY_UP →
       (0 < pos → pos' = Z.max 0 (pos - (maxy - 1))) ∧
       (pos <= 0 → pos' = pos)) ∧
    (ch = KEY_NPAGE →
       (pos + maxy - 1 < L → pos' = pos + 1) ∧
       (L <= pos + maxy - 1 → pos' = pos)) ∧
    (ch = KEY_PPAGE →
       (0 < pos → pos' = pos - 1) ∧
       (pos <= 0 → pos' = pos)).
Proof.
  intros Hpos Hch%isin_chapter_scroll.
  destruct (chapter_scroll_res s chap maxy maxx ch pos Hpos Hch)
    as (pos' & cp' & Hres & Hset & Hspec).
  destruct (run_of_res _ _ Hres) as [l Hl]. exists l, pos', cp'. auto.
Qed.








End Session.

Section World.

Variable isfile : string → bool.
Variable ZipFile : string → option (string → option string).
Variable BeautifulSoup : string → node.
Variable decode : node → string.
Variable addstr_ok : Z → Z → string → bool.
Variable images : bool.

(** C10.  For a path that is not a regular file with the extension
    [.epub], in any case of letters, [dump_epub] and [curses_epub] return
    at once: nothing is opened, read, printed or drawn, no key is read and
    no exception is raised. *)
Theorem not_an_epub_is_ignored fl maxcol inputs :
  ¬ (isfile fl = true ∧ lower (splitext_ext fl) = ".epub") →
  dump_epub isfile ZipFile BeautifulSoup decode fl maxcol = Run [] (Ok tt) ∧
  curses_epub isfile ZipFile BeautifulSoup decode addstr_ok images fl inputs =
    Run [] (Ok Returned).
Proof.
  intros Hno.
  assert (Hcheck : check_epub isfile fl = false).
  { unfold check_epub. destruct (isfile fl); [|reflexivity].
    destruct (String.eqb_spec (lower (splitext_ext fl)) ".epub"); [|reflexivity].
    now destruct Hno. }
  unfold dump_epub, curses_epub. rewrite Hcheck. split; reflexivity.
Qed.

End World.

(** *** The book on a terminal *)

(** C7 (defect of the code).  On the four-entry table of contents and a
    terminal of 2 rows, PgDn at the top moves the window start to 2, the
    last page, where the specification asks for 0 + (2 - 1) = 1. *)
Theorem page_down_jumps_to_last_page :
  toc_inv 4 2 (initial Sample.chaps) ∧
  res (toc_iteration Sample.BeautifulSoup Sample.markup Sample.read Sample.chaps
         (initial Sample.chaps) (Sample.key 2 KEY_NPAGE)) =
    Ok (Toc (State 2 0 [0; 0; 0; 0])) ∧
  clamp 0 (Z.max 0 (4 - 2)) (0 + (2 - 1)) = 1.
Proof. split; [unfold toc_inv; simpl; lia|]. split; reflexivity. Qed.

(** The lines of the first chapter. *)
Lemma first_chapter_lines :
  res (chapter_text Sample.BeautifulSoup Sample.markup Sample.read "ch1.html" (5, 80) (Int 80)) =
    Ok Sample.lines14 ∧
  length (split newline Sample.lines14) = 14%nat.
Proof. split; reflexivity. Qed.

(** C3, as stated, fails: the switch key on the title entry, whose content
    reference is [None], leaves the table-of-contents view. *)
Lemma switch_on_title_enters_chapter :
  getitem Sample.chaps 0 = Some ("A Book", None) ∧
  res (toc_iteration Sample.BeautifulSoup Sample.markup Sample.read Sample.chaps
         (initial Sample.chaps) (Sample.key 5 HT)) =
    Ok (Chapter (initial Sample.chaps) []) ∧
  res (toc_iteration Sample.BeautifulSoup Sample.markup Sample.read Sample.chaps
         (initial Sample.chaps) (Sample.key 5 HT)) ≠
    Ok (Toc (initial Sample.chaps)).
Proof. split; [reflexivity|]. split; [reflexivity | discriminate]. Qed.

Lemma switch_on_header_witness :
  (∃ l, toc_iteration Sample.BeautifulSoup Sample.markup Sample.read Sample.chaps
          (initial Sample.chaps) (Sample.key 5 HT) =
        Run l (Ok (Chapter (initial Sample.chaps) [])) ∧ reads l = []) ∧
  (∀ maxy' maxx' ch', isin ch' CHAPTERTOCSWITCH_KEYS = true →
     ∃ l', chapter_iteration Sample.addstr_ok Sample.images Sample.read (initial Sample.chaps) []
             (Input maxy' maxx' ch') =
           Run l' (Ok (Toc (initial Sample.chaps))) ∧ reads l' = []).
Proof.
  apply (switch_on_header Sample.BeautifulSoup Sample.markup Sample.addstr_ok Sample.images Sample.read
           Sample.chaps (initial Sample.chaps) 5 80 HT "A Book" None);
    [unfold toc_inv; simpl; lia | reflexivity..].
Defined.

(** C4, as stated, fails: on the 14 lines of the first chapter and a
    terminal of 5 rows, the down-arrow key moves the offset from 0 to 4,
    not to 1, and the PgDn key moves it to 1, not to 4. *)
Lemma down_arrow_scrolls_a_page :
  res (chapter_iteration Sample.addstr_ok Sample.images Sample.read (State 0 1 [0; 0; 0; 0])
         (split newline Sample.lines14) (Sample.key 5 KEY_DOWN)) =
    Ok (Chapter (State 0 1 [0; 4; 0; 0]) (split newline Sample.lines14)) ∧
  res (chapter_iteration Sample.addstr_ok Sample.images Sample.read (State 0 1 [0; 0; 0; 0])
         (split newline Sample.lines14) (Sample.key 5 KEY_NPAGE)) =
    Ok (Chapter (State 0 1 [0; 1; 0; 0]) (split newline Sample.lines14)) ∧
  0 + 5 - 1 < 14 ∧ 4 ≠ 0 + 1 ∧ 1 ≠ 0 + (5 - 1).
Proof. repeat split; try reflexivity; lia. Qed.

Lemma chapter_scroll_witness :
  ∃ l pos' chaps_pos',
    chapter_iteration Sample.addstr_ok Sample.images Sample.read (State 0 1 [0; 0; 0; 0])
      (split newline Sample.lines14) (Sample.key 5 KEY_DOWN) =
      Run l (Ok (Chapter (State 0 1 chaps_pos') (split newline Sample.lines14))) ∧
    setitem [0; 0; 0; 0] 1 pos' = Some chaps_pos' ∧
    pos' = 4.
Proof.
  destruct (chapter_scroll Sample.addstr_ok Sample.images Sample.read (State 0 1 [0; 0; 0; 0])
              (split newline Sample.lines14) 5 80 KEY_DOWN 0 eq_refl eq_refl)
    as (l & pos' & cp' & Hrun & Hset & Hdown & _).
  exists l, pos', cp'. split; [exact Hrun|]. split; [exact Hset|].
  apply (Hdown eq_refl). simpl. lia.
Defined.

Lemma toc_scroll_invariant_witness :
  ∃ l s,
    Sample.loop Sample.chaps (Toc (initial Sample.chaps))
      (map (Sample.key 3) [KEY_DOWN; KEY_DOWN; KEY_NPAGE; KEY_UP; KEY_PPAGE; KEY_NPAGE]) =
      Run l (Ok (Toc s)) ∧
    0 <= start s <= Z.max 0 (Z.of_nat (length Sample.chaps) - 3) ∧
    start s + cursor_row s < Z.of_nat (length Sample.chaps).
Proof.
  apply (toc_scroll_invariant Sample.BeautifulSoup Sample.markup Sample.addstr_ok Sample.images Sample.read
           Sample.chaps 3 (map (Sample.key 3)
             [KEY_DOWN; KEY_DOWN; KEY_NPAGE; KEY_UP; KEY_PPAGE; KEY_NPAGE]));
    [simpl; lia | lia | repeat constructor].
Defined.


(** The scenario of the specification: the first chapter is entered and
    scrolled to offset 12, left, and entered again; it is shown from 12. *)
Example reenter_restores_offset :
  res (Sample.curses_epub "book.epub"
         (map (Sample.key 5) [KEY_DOWN; HT; KEY_DOWN; KEY_DOWN; KEY_DOWN; HT;
                       KEY_UP; KEY_DOWN; HT])) =
    Ok (Chapter (State 0 1 [0; 12; 0; 0]) (split newline Sample.lines14)).
Proof. reflexivity. Qed.

Lemma not_an_epub_is_ignored_witness :
  ¬ (Sample.isfile "notes.txt" = true ∧ lower (splitext_ext "notes.txt") = ".epub") ∧
  Sample.dump_epub "notes.txt" (Int 72) = Run [] (Ok tt) ∧
  Sample.curses_epub "notes.txt" [Sample.key 24 KEY_DOWN] = Run [] (Ok Returned).
Proof.
  assert (H : ¬ (Sample.isfile "notes.txt" = true ∧
                 lower (splitext_ext "notes.txt") = ".epub"))
    by (intros [_ H]; vm_compute in H; discriminate H).
  split; [exact H|].
  exact (not_an_epub_is_ignored Sample.isfile Sample.ZipFile Sample.BeautifulSoup
           Sample.markup Sample.addstr_ok Sample.images "notes.txt" (Int 72) [Sample.key 24 KEY_DOWN] H).
Defined.

(** The consumer of the image markers does recognize one. *)
Example search_img_finds_marker :
  search_img ("See " ++ img_marker "images/cover.jpg" "Cover" ++ " here") =
    Some "images/cover.jpg".
Proof. reflexivity. Qed.

(** Dump mode with [-c 5] on the book: the first chapter's first line is
    printed whole, with the decoded [&]. *)
Example dump_prints_unwrapped :
  res (Sample.dump_epub "book.epub" (Int 5)) = Ok tt ∧
  In (Print Sample.lines14) (log (Sample.dump_epub "book.epub" (Int 5))) ∧
  In (Print "aaa bbb") (log (Sample.dump_epub "book.epub" (Int 5))).
Proof. vm_compute. intuition. Qed.

End ReaderFacts.

(** * Further properties *)

(** ** The converter, further *)

Module HtmlMore.

Import PyStr Eff Html HtmlFacts.

Lemma text_of_app (evs1 evs2 : list event) :
  text_of (evs1 ++ evs2) = (text_of evs1 ++ text_of evs2)%string.
Proof.
  induction evs1 as [|e evs1 IH]; [reflexivity|].
  change (text_of ((e :: evs1) ++ evs2))
    with (contribution e ++ text_of (evs1 ++ evs2))%string.
  rewrite IH, <- append_assoc. reflexivity.
Qed.

(** X1.  The text [textify] returns is the character data of the fragment,
    joined in order; the image size and the column limit it is given play
    no part. *)
Theorem textify_is_the_character_data s sz (c : number) :
  textify s sz c = text_of <$> feed s ∧
  ∀ sz' c', textify s sz' c' = textify s sz c.
Proof.
  assert (H : ∀ sz c, textify s sz c = text_of <$> feed s).
  { intros sz0 c0. unfold textify. destruct (feed s); simpl; [|reflexivity].
    now rewrite written_concat. }
  split; [apply H|]. intros sz' c'. now rewrite !H.
Qed.

(** X2.  Handler calls compose: what the writer holds after two runs of
    calls is what it holds after the first followed by what the second
    alone writes. *)
Theorem written_app (c : number) (evs1 evs2 : list event) :
  written c (evs1 ++ evs2) = (written c evs1 ++ written c evs2)%string.
Proof. rewrite !written_concat. apply text_of_app. Qed.

(** X3.  Start and end tags leave no trace: a call of [handle_starttag] or
    [handle_endtag] anywhere among the handler calls does not change the
    text written. *)
Theorem tags_write_nothing (c : number) (evs1 evs2 : list event) tag attrs :
  written c (evs1 ++ StartTag tag attrs :: evs2) = written c (evs1 ++ evs2) ∧
  written c (evs1 ++ EndTag tag :: evs2) = written c (evs1 ++ evs2).
Proof.
  rewrite !written_concat, !text_of_app. split; reflexivity.
Qed.

Lemma span_all (p : ascii → bool) (s : string) :
  forallb p (list_ascii_of_string s) = true → span p s = (s, EmptyString).
Proof.
  induction s as [|a s IH]; [reflexivity|]. simpl.
  intros [Ha Hs]%andb_true_iff. rewrite Ha, (IH Hs). reflexivity.
Qed.

Lemma unescape_plain (s : string) :
  forallb (λ a, negb (Ascii.eqb a "&")) (list_ascii_of_string s) = true →
  unescape s = Some s.
Proof.
  unfold unescape. induction s as [|a s IH]; [reflexivity|]. simpl.
  intros [Ha Hs]%andb_true_iff. apply negb_true_iff in Ha. rewrite Ha, (IH Hs).
  reflexivity.
Qed.

(** X4.  Text without markup passes through unchanged: a fragment that
    holds neither [<] nor [&] is returned as it is. *)
Theorem textify_plain_text s sz (c : number) :
  forallb (λ a, negb (Ascii.eqb a "<") && negb (Ascii.eqb a "&"))
    (list_ascii_of_string s) = true →
  textify s sz c = Some s.
Proof.
  intros H.
  assert (Hlt : forallb (λ a, negb (Ascii.eqb a "<")) (list_ascii_of_string s) = true).
  { apply forallb_forall. intros a Ha. rewrite forallb_forall in H.
    now destruct (proj1 (andb_true_iff _ _) (H a Ha)). }
  assert (Hamp : forallb (λ a, negb (Ascii.eqb a "&")) (list_ascii_of_string s) = true).
  { apply forallb_forall. intros a Ha. rewrite forallb_forall in H.
    now destruct (proj1 (andb_true_iff _ _) (H a Ha)). }
  unfold textify, feed. cbn [goahead]. rewrite (span_all _ _ Hlt).
  destruct s as [|a s]; [reflexivity|].
  rewrite (unescape_plain _ Hamp). cbn. unfold written. cbn.
  reflexivity.
Qed.

Lemma textify_plain_text_witness : textify "aaa bbb" (80, 45) (Int 3) = Some "aaa bbb".
Proof. apply (textify_plain_text "aaa bbb" (80, 45) (Int 3)). reflexivity. Defined.

(** X5.  The parser as [textify] builds it never calls [handle_entityref]
    or [handle_charref]: no fragment makes the tokenizer report an entity
    or a character reference. *)
Theorem reference_handlers_are_never_called s evs name :
  feed s = Some evs → ¬ In (EntityRef name) evs ∧ ¬ In (CharRef name) evs.
Proof.
  intros H%feed_no_reference. rewrite forallb_forall in H.
  split; intros Hin; specialize (H _ Hin); discriminate H.
Qed.

Lemma reference_handlers_are_never_called_witness :
  feed "a &amp; b" = Some [Data "a & b"] ∧
  ¬ In (EntityRef "amp") [Data "a & b"] ∧ ¬ In (CharRef "amp") [Data "a & b"].
Proof.
  split; [reflexivity|].
  apply (reference_handlers_are_never_called "a &amp; b" [Data "a & b"] "amp").
  reflexivity.
Defined.

End HtmlMore.

(** ** The indexer, further *)

Module IndexerMore.

Import PyStr Eff Indexer Notions EffFacts IndexerFacts.

(** *** Stripping *)

Lemma lstrip_head (s : string) :
  match lstrip s with
  | EmptyString => True
  | String c _ => isspace c = false
  end.
Proof.
  induction s as [|c s IH]; [exact I|]. simpl.
  destruct (isspace c) eqn:Hc; [exact IH | exact Hc].
Qed.

Lemma lstrip_fix (s : string) :
  match s with
  | EmptyString => True
  | String c _ => isspace c = false
  end → lstrip s = s.
Proof. destruct s as [|c s]; [reflexivity|]. simpl. now intros ->. Qed.

Lemma rstrip_head c s :
  isspace c = false → ∃ r, rstrip (String c s) = String c r.
Proof. intros Hc. simpl. destruct (rstrip s); rewrite ?Hc; eauto. Qed.

Lemma rstrip_idem (s : string) : rstrip (rstrip s) = rstrip s.
Proof.
  induction s as [|c s IH]; [reflexivity|]. simpl.
  destruct (rstrip s) as [|c' r'] eqn:Hr.
  - destruct (isspace c) eqn:Hc; [reflexivity|]. simpl. now rewrite Hc.
  - change (rstrip (String c (String c' r'))) with
      (match rstrip (String c' r') with
       | EmptyString => if isspace c then EmptyString else str1 c
       | r'' => String c r''
       end).
    rewrite IH. reflexivity.
Qed.

Lemma strip_idem (s : string) : strip (strip s) = strip s.
Proof.
  unfold strip. pose proof (lstrip_head s) as Hh.
  destruct (lstrip s) as [|c t]; [reflexivity|].
  destruct (rstrip_head c t Hh) as [r Hr]. rewrite Hr.
  rewrite (lstrip_fix (String c r) Hh), <- Hr. apply rstrip_idem.
Qed.

(** X6.  The path of an entry without a label is the reading-order path
    stripped, [section.strip()], and has no white space around it:
    stripping it again changes nothing. *)
Theorem unlabelled_path_is_stripped (z : gmap string string) (section : string) :
  z !! section = None →
  output z section = (EmptyString, Some (strip section)) ∧
  strip (strip section) = strip section.
Proof.
  intros Hz. unfold output. rewrite Hz. split; [reflexivity | apply strip_idem].
Qed.

Lemma unlabelled_path_is_stripped_witness :
  output ∅ "  ch2.html " = (EmptyString, Some "ch2.html") ∧
  strip "ch2.html" = "ch2.html".
Proof. apply (unlabelled_path_is_stripped ∅ "  ch2.html "). reflexivity. Defined.

(** *** The manifest *)

Lemma prefix_app (a b : string) : String.prefix a (a ++ b) = true.
Proof.
  induction a as [|c a IH]; [now destruct b|].
  change (String.prefix (String c a) (String c (a ++ b)) = true). simpl.
  destruct (ascii_dec c c); [exact IH | contradiction].
Qed.

Lemma manifest_fold_not_ok basedir items (acc : result (gmap string string * option string)) :
  (∀ v, acc ≠ Ok v) → fold_left (manifest_step basedir) items acc = acc.
Proof.
  revert acc. induction items as [|it items IH]; intros acc Hacc; [reflexivity|].
  simpl. assert (Hstep : manifest_step basedir acc it = acc).
  { destruct acc as [v| |]; [now destruct (Hacc v) | reflexivity..]. }
  rewrite Hstep. now apply IH.
Qed.

(** One item of the manifest, when the loop goes on. *)
Lemma manifest_step_Ok basedir acc it x ncx :
  manifest_step basedir acc it = Ok (x, ncx) →
  ∃ x0 ncx0 id href mt,
    acc = Ok (x0, ncx0) ∧
    attrs_of it !! "id" = Some id ∧ attrs_of it !! "href" = Some href ∧
    attrs_of it !! "media-type" = Some mt ∧
    x = <[id := (basedir ++ href)%string]> x0 ∧
    ncx = (if String.eqb mt ncx_media_type then Some (basedir ++ href)%string else ncx0).
Proof.
  unfold manifest_step, item. destruct acc as [[x0 ncx0]| |]; [|discriminate..]. cbn.
  destruct (attrs_of it !! "href") as [href|]; [|discriminate]. cbn.
  destruct (attrs_of it !! "id") as [id|]; [|discriminate]. cbn.
  destruct (attrs_of it !! "media-type") as [mt|]; [|discriminate]. cbn.
  intros H. exists x0, ncx0, id, href, mt. repeat split.
  - destruct (String.eqb mt ncx_media_type); now injection H.
  - destruct (String.eqb mt ncx_media_type); now injection H.
Qed.

Lemma manifest_fold_snoc basedir items it acc :
  fold_left (manifest_step basedir) (items ++ [it]) acc =
  manifest_step basedir (fold_left (manifest_step basedir) items acc) it.
Proof. now rewrite fold_left_app. Qed.

(** X7.  Every path the manifest yields, and the path of the navigation
    document, starts with the directory of the package document. *)
Theorem manifest_paths_start_with_basedir basedir items x ncx :
  fold_left (manifest_step basedir) items (Ok (∅, None)) = Ok (x, ncx) →
  (∀ id path, x !! id = Some path → String.prefix basedir path = true) ∧
  (∀ path, ncx = Some path → String.prefix basedir path = true).
Proof.
  revert x ncx. induction items as [|it items IH] using rev_ind; intros x ncx.
  - intros [= <- <-]. split; [intros id path; now rewrite lookup_empty | discriminate].
  - rewrite manifest_fold_snoc.
    intros (x0 & ncx0 & id & href & mt & Hacc & _ & _ & _ & -> & ->)%manifest_step_Ok.
    destruct (IH x0 ncx0 Hacc) as [Hx Hn]. split.
    + intros id' path. destruct (decide (id = id')) as [->|Hne].
      * rewrite lookup_insert_eq. intros [= <-]. apply prefix_app.
      * rewrite lookup_insert_ne by exact Hne. apply Hx.
    + intros path. destruct (String.eqb mt ncx_media_type); [|apply Hn].
      intros [= <-]. apply prefix_app.
Qed.

(** X8.  The navigation document is looked for by media type alone: the
    manifest yields no path for it exactly when no item is declared with
    the type [application/x-dtbncx+xml]. *)
Theorem ncx_is_found_by_media_type basedir items x ncx :
  fold_left (manifest_step basedir) items (Ok (∅, None)) = Ok (x, ncx) →
  ncx = None ↔
  Forall (λ it, attrs_of it !! "media-type" ≠ Some ncx_media_type) items.
Proof.
  revert x ncx. induction items as [|it items IH] using rev_ind; intros x ncx.
  - intros [= <- <-]. split; [constructor | reflexivity].
  - rewrite manifest_fold_snoc.
    intros (x0 & ncx0 & id & href & mt & Hacc & _ & _ & Hmt & -> & ->)%manifest_step_Ok.
    specialize (IH x0 ncx0 Hacc). rewrite Forall_app, Forall_singleton, Hmt.
    destruct (String.eqb_spec mt ncx_media_type) as [->|Hne].
    + split; [discriminate | now intros [_ ?]].
    + rewrite IH. split; [intros ?; split; [assumption | congruence] | now intros [? _]].
Qed.

(** *** The spine *)

Lemma spine_fold_not_ok x items (acc : result (list string)) :
  (∀ v, acc ≠ Ok v) → fold_left (spine_step x) items acc = acc.
Proof.
  revert acc. induction items as [|it items IH]; intros acc Hacc; [reflexivity|].
  simpl. assert (Hstep : spine_step x acc it = acc).
  { destruct acc as [v| |]; [now destruct (Hacc v) | reflexivity..]. }
  rewrite Hstep. now apply IH.
Qed.

Lemma spine_step_cases x y it :
  (∃ path, resolves x it path ∧ spine_step x (Ok y) it = Ok (y ++ [path])%list) ∨
  ((∀ path, ¬ resolves x it path) ∧ spine_step x (Ok y) it = Raise KeyError).
Proof.
  unfold spine_step, item, resolves. cbn.
  destruct (attrs_of it !! "idref") as [idref|] eqn:Hid; cbn.
  - destruct (x !! idref) as [path|] eqn:Hx; cbn.
    + left. exists path. eauto.
    + right. split; [|reflexivity]. intros path (idref' & [= <-] & Hp). congruence.
  - right. split; [|reflexivity]. intros path (idref' & Hp & _). discriminate.
Qed.

Lemma spine_fold_spec x items acc y :
  fold_left (spine_step x) items (Ok acc) = Ok y ↔
  ∃ paths, y = (acc ++ paths)%list ∧ Forall2 (resolves x) items paths.
Proof.
  revert acc. induction items as [|it items IH]; intros acc.
  - simpl. split.
    + intros [= <-]. exists []. rewrite app_nil_r. split; [reflexivity | constructor].
    + intros (paths & -> & H). inversion H. now rewrite app_nil_r.
  - cbn [fold_left]. destruct (spine_step_cases x acc it) as [(path & Hres & ->) | (Hno & ->)].
    + rewrite IH. split.
      * intros (paths & -> & H). exists (path :: paths). rewrite <- app_assoc.
        split; [reflexivity | now constructor].
      * intros (paths & -> & H). inversion H as [|? p ? ps Hp Hps]; subst.
        destruct Hres as (i1 & Hi1 & Hx1), Hp as (i2 & Hi2 & Hx2).
        assert (p = path) as -> by congruence.
        exists ps. rewrite <- app_assoc. split; [reflexivity | assumption].
    + rewrite spine_fold_not_ok by discriminate. split; [discriminate|].
      intros (paths & _ & H). inversion H as [|? p ? ps Hp Hps]; subst.
      now destruct (Hno p).
Qed.

(** X9.  The reading order is the spine resolved through the manifest,
    item by item and in order: the loop ends normally exactly when every
    item reference names a manifest item, and then yields one path per
    reference. *)
Theorem reading_order_is_the_resolved_spine x items y :
  fold_left (spine_step x) items (Ok []) = Ok y ↔ Forall2 (resolves x) items y.
Proof.
  rewrite spine_fold_spec. split.
  - now intros (paths & -> & H).
  - intros H. exists y. auto.
Qed.

Lemma spine_fold_result x items acc :
  (∃ y, fold_left (spine_step x) items (Ok acc) = Ok y) ∨
  fold_left (spine_step x) items (Ok acc) = Raise KeyError.
Proof.
  revert acc. induction items as [|it items IH]; intros acc; [left; now exists acc|].
  cbn [fold_left]. destruct (spine_step_cases x acc it) as [(path & _ & ->) | (_ & ->)].
  - apply IH.
  - right. apply spine_fold_not_ok. discriminate.
Qed.

(** X10.  An item reference without an [idref], or with one the manifest
    does not hold, ends the indexing with a [KeyError]. *)
Theorem dangling_idref_raises x items it :
  In it items → (∀ path, ¬ resolves x it path) →
  fold_left (spine_step x) items (Ok []) = Raise KeyError.
Proof.
  intros Hin Hno. destruct (spine_fold_result x items []) as [[y Hy]|H]; [|exact H].
  apply spine_fold_spec in Hy as (paths & _ & HF).
  exfalso. apply list_elem_of_In, list_elem_of_lookup_1 in Hin as [i Hi].
  destruct (Forall2_lookup_l _ _ _ _ _ HF Hi) as (p & _ & Hp).
  now destruct (Hno p).
Qed.

Lemma dangling_idref_raises_witness :
  fold_left (spine_step {[ "c1" := "ch1.html" ]})
    [Sample.itemref "c1"; Sample.itemref "c7"] (Ok []) = Raise KeyError.
Proof.
  apply (dangling_idref_raises {[ "c1" := "ch1.html" ]}
           [Sample.itemref "c1"; Sample.itemref "c7"] (Sample.itemref "c7")).
  - right; left; reflexivity.
  - intros path (idref & Hid & Hx). vm_compute in Hid. injection Hid as <-.
    vm_compute in Hx. discriminate Hx.
Defined.

(** *** The navigation points *)

Lemma split_head_no_sep sep s :
  forallb (λ c, negb (Ascii.eqb c sep)) (list_ascii_of_string (split_head sep s)) = true.
Proof.
  induction s as [|c s IH]; [reflexivity|]. simpl.
  destruct (Ascii.eqb c sep) eqn:Hc; [reflexivity|]. simpl. now rewrite Hc.
Qed.

Lemma split_head_app sep a b :
  forallb (λ c, negb (Ascii.eqb c sep)) (list_ascii_of_string a) = true →
  split_head sep (a ++ String sep b) = a.
Proof.
  induction a as [|c a IH].
  - intros _. change (split_head sep (String sep b) = EmptyString). simpl.
    now rewrite Ascii.eqb_refl.
  - simpl. intros [Hc Ha]%andb_true_iff. apply negb_true_iff in Hc.
    change (split_head sep (String c (a ++ String sep b)) = String c a). simpl.
    now rewrite Hc, (IH Ha).
Qed.

Lemma navpoint_key_Ok np k :
  navpoint_key np = Ok k →
  ∃ content src, find "content" np = Some content ∧
                 attrs_of content !! "src" = Some src ∧ k = split_head "#" src.
Proof.
  unfold navpoint_key, deref. destruct (find "content" np) as [content|]; [|discriminate].
  cbn. destruct (attrs_of content !! "src") as [src|] eqn:Hsrc; [|discriminate]. cbn.
  intros [= <-]. eauto.
Qed.

(** X11.  A label is never filed under the empty path nor under a path
    that holds a [#]: the keys of the label map are the sources of the
    navigation points cut before their anchor. *)
Theorem label_keys_have_no_anchor nps z k label :
  labels nps = Ok z → z !! k = Some label →
  k ≠ EmptyString ∧
  forallb (λ c, negb (Ascii.eqb c "#")) (list_ascii_of_string k) = true.
Proof.
  intros Hz Hk. apply (labels_spec nps z k label Hz) in Hk.
  destruct Hk as (Hne & before & np & after & _ & Hkey & _).
  split; [exact Hne|].
  apply navpoint_key_Ok in Hkey as (content & src & _ & _ & ->).
  apply split_head_no_sep.
Qed.

Lemma label_keys_have_no_anchor_witness :
  "ch1.html" ≠ EmptyString ∧
  forallb (λ c, negb (Ascii.eqb c "#")) (list_ascii_of_string "ch1.html") = true.
Proof.
  eapply (label_keys_have_no_anchor (findAll "navpoint" Sample.toc_ncx) _ "ch1.html" "One");
    vm_compute; reflexivity.
Defined.

(** X12.  The anchor of a navigation point is stripped off: a point whose
    source is [file#anchor] is filed under [file], whatever the anchor. *)
Theorem anchor_is_stripped np content file anchor :
  find "content" np = Some content →
  attrs_of content !! "src" = Some (file ++ String "#" anchor)%string →
  forallb (λ c, negb (Ascii.eqb c "#")) (list_ascii_of_string file) = true →
  navpoint_key np = Ok file.
Proof.
  intros Hc Hsrc Hfile. unfold navpoint_key. rewrite Hc. cbn. rewrite Hsrc. cbn.
  now rewrite split_head_app.
Qed.

Lemma anchor_is_stripped_witness :
  navpoint_key (Sample.navpoint "One" "ch1.html#start") = Ok "ch1.html".
Proof.
  apply (anchor_is_stripped (Sample.navpoint "One" "ch1.html#start")
           (Tag "content" (Sample.attributes [("src", "ch1.html#start")]) [])
           "ch1.html" "start"); reflexivity.
Defined.

Section WithArchive.

Variable read : string → option string.
Variable BeautifulSoup : string → node.

(** X13.  In any table of contents the indexer yields, the first entry is
    the title with no content reference and it is the only such entry:
    every other entry refers to a path. *)
Theorem only_the_title_has_no_content toc :
  res (table_of_contents read BeautifulSoup) = Ok toc →
  ∃ title rest, toc = (title, None) :: rest ∧ Forall (λ e, is_Some (snd e)) rest.
Proof.
  unfold table_of_contents. rewrite res_bind.
  destruct (res (package read BeautifulSoup)) as [[[title y] ncx]| |]; [|discriminate..].
  rewrite res_bind.
  destruct (res (navpoints read BeautifulSoup ncx)) as [nps| |]; [|discriminate..].
  rewrite res_bind. cbn [res lift].
  destruct (labels nps) as [z| |]; [|discriminate..].
  intros [= <-]. exists title, (map (output z) y). split; [reflexivity|].
  apply List.Forall_forall. intros e (p & <- & _)%in_map_iff.
  unfold output. destruct (z !! p); eauto.
Qed.

(** X14.  Without a navigation document every chapter entry has the empty
    title and its stripped path, and nothing is read after the package
    document. *)
Theorem no_navigation_document title y l :
  package read BeautifulSoup = Run l (Ok (title, y, None)) →
  table_of_contents read BeautifulSoup =
    Run l (Ok ((title, None) :: map (λ path, (EmptyString, Some (strip path))) y)).
Proof.
  intros H. unfold table_of_contents. rewrite H. cbn -[output]. rewrite !app_nil_r.
  rewrite (map_ext (output ∅) (λ path, (EmptyString, Some (strip path)))); [reflexivity|].
  intros path. unfold output. now rewrite lookup_empty.
Qed.

End WithArchive.

(** *** On the small book *)

Lemma manifest_paths_start_with_basedir_witness :
  String.prefix "OEBPS/" "OEBPS/ch1.html" = true.
Proof.
  eapply (proj1 (manifest_paths_start_with_basedir "OEBPS/"
                   [Sample.manifest_item "ncx" "toc.ncx" ncx_media_type;
                    Sample.manifest_item "c1" "ch1.html" "application/xhtml+xml"]
                   _ _ eq_refl) "c1" "OEBPS/ch1.html").
  vm_compute. reflexivity.
Defined.

Lemma ncx_is_found_by_media_type_witness :
  @None string = None ↔
  Forall (λ it, attrs_of it !! "media-type" ≠ Some ncx_media_type)
    [Sample.manifest_item "c1" "ch1.html" "application/xhtml+xml"].
Proof.
  eapply (ncx_is_found_by_media_type EmptyString
            [Sample.manifest_item "c1" "ch1.html" "application/xhtml+xml"] _ None).
  vm_compute. reflexivity.
Defined.

Lemma only_the_title_has_no_content_witness :
  ∃ title rest, Sample.chaps = (title, None) :: rest ∧
                Forall (λ e, is_Some (snd e)) rest.
Proof.
  apply (only_the_title_has_no_content Sample.read Sample.BeautifulSoup Sample.chaps).
  reflexivity.
Defined.

Lemma no_navigation_document_witness :
  table_of_contents Sample.read plain_BeautifulSoup =
    Run [ZipRead "META-INF/container.xml"; ZipRead "content.opf"]
      (Ok (("A Book", None) ::
           map (λ path, (EmptyString, Some (strip path))) ["ch1.html"; "ch3.html"])).
Proof.
  apply (no_navigation_document Sample.read plain_BeautifulSoup "A Book"
           ["ch1.html"; "ch3.html"]
           [ZipRead "META-INF/container.xml"; ZipRead "content.opf"]).
  reflexivity.
Defined.

End IndexerMore.

(** ** The reader, further *)

Module ReaderMore.

Import PyStr Eff Html Indexer Reader Notions EffFacts HtmlFacts ReaderFacts.

Lemma isin_app ch ks1 ks2 : isin ch (ks1 ++ ks2) = isin ch ks1 || isin ch ks2.
Proof. apply existsb_app. Qed.

Lemma bind_ext {A B} (m : M A) (f g : A → M B) :
  (∀ a, f a = g a) → m ≫= f = m ≫= g.
Proof. intros H. unfold mbind, M_bind. destruct (res m); now rewrite ?H. Qed.

(** *** The image markers *)

Lemma drop_prefix_app p s : drop_prefix p (p ++ s) = Some s.
Proof.
  induction p as [|c p IH]; [now destruct s|].
  change (drop_prefix (String c p) (String c (p ++ s)) = Some s). simpl.
  now rewrite Ascii.eqb_refl.
Qed.

Lemma drop_prefix_Some p s r : drop_prefix p s = Some r → s = (p ++ r)%string.
Proof.
  revert s. induction p as [|c p IH]; intros s.
  - destruct s; now intros [= <-].
  - destruct s as [|c' s]; [discriminate|]. simpl.
    destruct (Ascii.eqb_spec c c') as [<-|]; [|discriminate].
    intros H%IH. change (String c s = String c (p ++ r)). now rewrite H.
Qed.

Lemma span_app p a c s :
  forallb p (list_ascii_of_string a) = true → p c = false →
  span p (a ++ String c s) = (a, String c s).
Proof.
  intros Ha Hc. induction a as [|x a IH].
  - change (span p (String c s) = (EmptyString, String c s)). simpl. now rewrite Hc.
  - simpl in Ha. apply andb_true_iff in Ha as [Hx Ha].
    change (span p (String x (a ++ String c s)) = (String x a, String c s)). simpl.
    now rewrite Hx, (IH Ha).
Qed.

Lemma span_spec p s a b :
  span p s = (a, b) →
  s = (a ++ b)%string ∧ forallb p (list_ascii_of_string a) = true.
Proof.
  revert a b. induction s as [|c s IH]; intros a b.
  - intros [= <- <-]. split; reflexivity.
  - simpl. destruct (p c) eqn:Hc.
    + destruct (span p s) as [a' b']. intros [= <- <-].
      destruct (IH a' b' eq_refl) as [-> Ha]. split; [reflexivity|].
      simpl. now rewrite Hc.
    + intros [= <- <-]. split; reflexivity.
Qed.

Lemma img_marker_app path alt rest :
  (img_marker path alt ++ rest)%string =
  (("[img=" ++ str1 dquote) ++ path ++
   String dquote ((" " ++ str1 dquote) ++ alt ++ String dquote ("]" ++ rest)))%string.
Proof.
  unfold img_marker. rewrite !append_assoc. reflexivity.
Qed.

Lemma match_img_marker path alt rest :
  path ≠ EmptyString → without dquote path = true → without dquote alt = true →
  match_img (img_marker path alt ++ rest) = Some path.
Proof.
  intros Hne Hp Ha. rewrite img_marker_app. unfold match_img.
  rewrite drop_prefix_app. cbn [mbind option_bind].
  rewrite (span_app _ path dquote _ Hp) by (now rewrite Ascii.eqb_refl).
  apply String.eqb_neq in Hne. rewrite Hne.
  change (String dquote ((" " ++ str1 dquote) ++ ?x))%string
    with ((str1 dquote ++ " " ++ str1 dquote) ++ x)%string.
  rewrite drop_prefix_app. cbn [mbind option_bind].
  rewrite (span_app _ alt dquote _ Ha) by (now rewrite Ascii.eqb_refl).
  change (String dquote ("]" ++ rest))%string with ((str1 dquote ++ "]") ++ rest)%string.
  rewrite drop_prefix_app. reflexivity.
Qed.

(** X24.  The expression the chapter loop searches a line with finds the
    marker of an image and yields its path: a line that starts with
    [[img="path" "alt"]], for a path that is not empty and a path and an
    alternative text without quotes, gives that path. *)
Theorem search_img_finds_the_path path alt rest :
  path ≠ EmptyString → without dquote path = true → without dquote alt = true →
  search_img (img_marker path alt ++ rest) = Some path.
Proof.
  intros Hne Hp Ha.
  pose proof (match_img_marker path alt rest Hne Hp Ha) as H.
  destruct (img_marker path alt ++ rest)%string; cbn [search_img]; now rewrite H.
Qed.

Lemma search_img_finds_the_path_witness :
  search_img (img_marker "images/cover.jpg" "Cover" ++ " and more") =
    Some "images/cover.jpg".
Proof.
  apply (search_img_finds_the_path "images/cover.jpg" "Cover" " and more");
    [discriminate | reflexivity | reflexivity].
Defined.

Lemma match_img_Some s path :
  match_img s = Some path →
  ∃ alt rest, s = (img_marker path alt ++ rest)%string ∧
              path ≠ EmptyString ∧ without dquote path = true ∧
              without dquote alt = true.
Proof.
  unfold match_img.
  destruct (drop_prefix ("[img=" ++ str1 dquote) s) as [r1|] eqn:H1; [|discriminate].
  cbn [mbind option_bind].
  destruct (span (λ c, negb (Ascii.eqb c dquote)) r1) as [p r2] eqn:H2.
  destruct (String.eqb_spec p EmptyString) as [->|Hne]; [discriminate|].
  destruct (drop_prefix (str1 dquote ++ " " ++ str1 dquote) r2) as [r3|] eqn:H3;
    [|discriminate].
  cbn [mbind option_bind].
  destruct (span (λ c, negb (Ascii.eqb c dquote)) r3) as [alt r4] eqn:H4.
  destruct (drop_prefix (str1 dquote ++ "]") r4) as [r5|] eqn:H5; [|discriminate].
  cbn [mbind option_bind]. intros [= ->].
  apply drop_prefix_Some in H1, H3, H5. apply span_spec in H2 as [-> Hp], H4 as [-> Ha].
  exists alt, r5. subst. split; [|auto].
  rewrite img_marker_app, !append_assoc. reflexivity.
Qed.

(** X25.  Conversely the expression finds nothing but markers: when the
    search yields a path, the line holds [[img="path" "alt"]] for some
    alternative text, the path is not empty and neither holds a quote. *)
Theorem search_img_only_finds_markers line path :
  search_img line = Some path →
  ∃ before alt rest,
    line = (before ++ img_marker path alt ++ rest)%string ∧
    path ≠ EmptyString ∧ without dquote path = true ∧ without dquote alt = true.
Proof.
  induction line as [|c line IH].
  - cbn [search_img]. destruct (match_img EmptyString) eqn:H; [|discriminate].
    intros [= ->]. apply match_img_Some in H as (alt & rest & H & ?).
    exists EmptyString, alt, rest. auto.
  - cbn [search_img]. destruct (match_img (String c line)) eqn:H.
    + intros [= ->]. apply match_img_Some in H as (alt & rest & H & ?).
      exists EmptyString, alt, rest. auto.
    + intros (before & alt & rest & -> & ?)%IH.
      exists (String c before), alt, rest. auto.
Qed.

Lemma search_img_only_finds_markers_witness :
  ∃ before alt rest,
    ("See " ++ img_marker "a.png" "A" ++ ".")%string =
      (before ++ img_marker "a.png" alt ++ rest)%string ∧
    "a.png" ≠ EmptyString ∧ without dquote "a.png" = true ∧ without dquote alt = true.
Proof.
  apply (search_img_only_finds_markers ("See " ++ img_marker "a.png" "A" ++ ".") "a.png").
  reflexivity.
Defined.

(** *** File names *)

Lemma chars_app a b :
  list_ascii_of_string (a ++ b) = (list_ascii_of_string a ++ list_ascii_of_string b)%list.
Proof.
  induction a as [|c a IH]; [reflexivity|].
  change (c :: list_ascii_of_string (a ++ b) =
          c :: (list_ascii_of_string a ++ list_ascii_of_string b)%list).
  now rewrite IH.
Qed.

Lemma without_app x a b : without x (a ++ b) = without x a && without x b.
Proof. unfold without. now rewrite chars_app, forallb_app. Qed.

Lemma rcut_no_sep sep s : without sep s = true → rcut sep s = (EmptyString, s).
Proof.
  induction s as [|c s IH]; [reflexivity|]. unfold without. simpl.
  intros [Hc Hs]%andb_true_iff. apply negb_true_iff in Hc.
  rewrite (IH Hs). simpl. now rewrite Hc.
Qed.

Lemma app_nonempty a c : String.eqb (a ++ str1 c) EmptyString = false.
Proof. now destruct a. Qed.

Lemma rcut_app_sep sep h t :
  without sep t = true → rcut sep (h ++ String sep t) = ((h ++ str1 sep)%string, t).
Proof.
  intros Ht. induction h as [|c h IH].
  - change (rcut sep (String sep t) = (str1 sep, t)). simpl.
    rewrite (rcut_no_sep sep t Ht). simpl. now rewrite Ascii.eqb_refl.
  - change (rcut sep (String c (h ++ String sep t)) = (String c (h ++ str1 sep), t)).
    simpl. rewrite IH, app_nonempty. reflexivity.
Qed.

(** The last component of a path in a directory. *)
Lemma basename_in_directory dir base :
  dir = EmptyString ∨ (∃ d, dir = (d ++ "/")%string) →
  without "/" base = true →
  snd (rcut "/" (dir ++ base)) = base.
Proof.
  intros [-> | [d ->]] Hb.
  - change (EmptyString ++ base)%string with base. now rewrite rcut_no_sep.
  - rewrite append_assoc. change ("/" ++ base)%string with (String "/" base).
    now rewrite rcut_app_sep.
Qed.

Lemma all_char_app c a b : all_char c (a ++ b) = all_char c a && all_char c b.
Proof. unfold all_char. now rewrite chars_app, forallb_app. Qed.

Lemma all_char_without c x s : all_char c s = true → c ≠ x → without x s = true.
Proof.
  unfold all_char, without. rewrite !forallb_forall. intros H Hne a Ha.
  apply H in Ha. apply Ascii.eqb_eq in Ha as <-. apply negb_true_iff.
  now apply Ascii.eqb_neq.
Qed.

Lemma getitem_nonneg {A} (l : list A) i : 0 <= i → getitem l i = l !! Z.to_nat i.
Proof.
  intros Hi. unfold getitem, norm_index. destruct (Z.ltb_spec i 0); [lia|].
  destruct (Z.leb_spec 0 i); [|lia].
  destruct (Z.ltb_spec i (Z.of_nat (length l))); simpl; [reflexivity|].
  symmetry. apply lookup_ge_None. lia.
Qed.

Lemma setitem_nonneg {A} (l l' : list A) i v :
  0 <= i → setitem l i v = Some l' → l' = <[Z.to_nat i := v]> l.
Proof.
  intros Hi. unfold setitem, norm_index. destruct (Z.ltb_spec i 0); [lia|].
  destruct (Z.leb_spec 0 i); [|lia].
  destruct (Z.ltb_spec i (Z.of_nat (length l))); simpl; [|discriminate].
  now intros [= <-].
Qed.

Section Session.

Variable BeautifulSoup : string → node.
Variable decode : node → string.
Variable addstr_ok : Z → Z → string → bool.
Variable images : bool.
Variable read : string → option string.
Variable chaps : list entry.

Abbreviation n := (Z.of_nat (length chaps)).
Abbreviation toc_iteration := (Reader.toc_iteration BeautifulSoup decode read chaps).
Abbreviation chapter_iteration := (Reader.chapter_iteration addstr_ok images read).
Abbreviation loop := (Reader.loop BeautifulSoup decode addstr_ok images read chaps).

(** X15.  In the table of contents PgDn is idempotent: once pressed, a
    second PgDn leaves the window and the cursor where the first put
    them. *)
Theorem page_down_is_idempotent s maxy maxx :
  toc_inv n maxy s →
  ∃ s1, res (toc_iteration s (Input maxy maxx KEY_NPAGE)) = Ok (Toc s1) ∧
        res (toc_iteration s1 (Input maxy maxx KEY_NPAGE)) = Ok (Toc s1).
Proof.
  intros Hinv. assert (Hmaxy : 1 <= maxy) by (destruct Hinv as (_ & ? & _); lia).
  destruct (toc_navigation_res BeautifulSoup decode read chaps s maxy maxx KEY_NPAGE
              Hinv Hmaxy ltac:(auto)) as (st1 & row1 & H1 & _ & _ & Hpg & _).
  destruct (Hpg eq_refl) as (-> & Ha & Hb).
  set (s1 := State st1 (cursor_row s) (chaps_pos s)).
  assert (Hinv1 : toc_inv n maxy s1).
  { destruct Hinv as (Hs & Hc & Hsc). unfold toc_inv, s1. simpl.
    destruct (Z.lt_ge_cases (start s + maxy - 1) n) as [Hlt|Hge];
      [rewrite (Ha Hlt) | rewrite (Hb Hge)]; lia. }
  destruct (toc_navigation_res BeautifulSoup decode read chaps s1 maxy maxx KEY_NPAGE
              Hinv1 Hmaxy ltac:(auto)) as (st2 & row2 & H2 & _ & _ & Hpg2 & _).
  destruct (Hpg2 eq_refl) as (-> & Ha2 & Hb2).
  unfold s1 in Ha2, Hb2, H2. cbn [start cursor_row chaps_pos] in Ha2, Hb2, H2.
  exists s1. split; [exact H1|]. subst s1. rewrite H2.
  enough (st2 = st1) as -> by reflexivity.
  destruct Hinv as (Hs & Hc & Hsc).
  destruct (Z.lt_ge_cases (start s + maxy - 1) n) as [Hlt|Hge].
  - specialize (Ha Hlt). rewrite Ha2 by lia. lia.
  - specialize (Hb Hge). rewrite Hb2 by lia. reflexivity.
Qed.

Lemma line_down_loop maxy maxx (k : nat) s j :
  toc_inv n maxy s → 0 <= j →
  start s = Z.min j (Z.max 0 (n - maxy)) →
  start s + cursor_row s = Z.min j (n - 1) →
  ∃ l s', loop (Toc s) (replicate k (Input maxy maxx KEY_DOWN)) = Run l (Ok (Toc s')) ∧
          start s' + cursor_row s' = Z.min (j + Z.of_nat k) (n - 1).
Proof.
  revert s j. induction k as [|k IH]; intros s j Hinv Hj Hst Hsel.
  - exists [], s. split; [reflexivity|]. rewrite Z.add_0_r. exact Hsel.
  - assert (Hmaxy : 1 <= maxy) by (destruct Hinv as (_ & ? & _); lia).
    destruct (toc_navigation_res BeautifulSoup decode read chaps s maxy maxx KEY_DOWN
                Hinv Hmaxy ltac:(auto)) as (st1 & row1 & H1 & Hdown & _).
    destruct (run_of_res _ _ H1) as [l1 Hl1].
    destruct (Hdown eq_refl) as [Ha Hb]. destruct Hinv as (Hs & Hc & Hsc).
    assert (Hnext : toc_inv n maxy (State st1 row1 (chaps_pos s)) ∧
                    st1 = Z.min (j + 1) (Z.max 0 (n - maxy)) ∧
                    st1 + row1 = Z.min (j + 1) (n - 1)).
    { unfold toc_inv. simpl.
      destruct (Z.lt_ge_cases (start s) (n - maxy)) as [Hlt|Hge].
      - destruct (Ha Hlt) as [-> ->]. lia.
      - destruct (Hb Hge) as (-> & Hc1 & Hc2).
        destruct (Z.lt_ge_cases (cursor_row s) (maxy - 1)) as [H3|H3];
          [destruct (Z.lt_ge_cases (start s + cursor_row s) (n - 1)) as [H4|H4]|].
        + rewrite (Hc1 H3 H4). lia.
        + rewrite Hc2 by lia. lia.
        + rewrite Hc2 by lia. lia. }
    destruct Hnext as (Hinv1 & Hst1 & Hsel1).
    destruct (IH (State st1 row1 (chaps_pos s)) (j + 1) Hinv1 ltac:(lia) Hst1 Hsel1)
      as (l2 & s' & Hl2 & Hsel').
    exists (l1 ++ l2)%list, s'. split.
    + change (replicate (S k) (Input maxy maxx KEY_DOWN))
        with (Input maxy maxx KEY_DOWN :: replicate k (Input maxy maxx KEY_DOWN)).
      rewrite loop_cons. cbn [Reader.iteration]. rewrite Hl1, bind_run_ok, Hl2.
      reflexivity.
    + rewrite Hsel'. f_equal. lia.
Qed.

(** X16.  Every entry can be reached with the down-arrow key: from the
    initial state, k presses put the cursor on entry k, and on the last
    entry once k passes the end. *)
Theorem line_down_reaches_every_entry maxy maxx (k : nat) :
  1 <= n → 1 <= maxy →
  ∃ l s,
    loop (Toc (initial chaps)) (replicate k (Input maxy maxx KEY_DOWN)) =
      Run l (Ok (Toc s)) ∧
    start s + cursor_row s = Z.min (Z.of_nat k) (n - 1).
Proof.
  intros Hn Hmaxy.
  destruct (line_down_loop maxy maxx k (initial chaps) 0) as (l & s & H & Hsel);
    [unfold toc_inv; simpl; lia | lia | simpl; lia | simpl; lia |].
  exists l, s. split; [exact H|]. rewrite Hsel. f_equal.
Qed.

Lemma draw_reads (rows : list (Z * string)) :
  reads (log (for_each rows
    (λ images '(i, line),
       tell [Addstr i 0 line];;
       if addstr_ok i 0 line then
         match search_img line with
         | Some path => mret (images ++ [path])%list
         | None => mret images
         end
       else mret images) [])) = [].
Proof.
  apply for_each_reads. intros imgs [i line]. rewrite bind_tell. cbn [log].
  destruct (addstr_ok i 0 line); [destruct (search_img line)|]; reflexivity.
Qed.

(** X17.  A key bound to nothing changes nothing: in the table of contents
    (on a state that satisfies the invariants) and in a chapter, any key
    outside the key lists, other than [i] and [e] in a chapter, leaves the
    view and the state as they are. *)
Theorem unbound_keys_change_nothing s maxy maxx ch :
  (toc_inv n maxy s →
   isin ch (ESCAPE_KEYS ++ toc_navigation_keys ++ CHAPTERTOCSWITCH_KEYS) = false →
   res (toc_iteration s (Input maxy maxx ch)) = Ok (Toc s)) ∧
  (∀ chap pos,
     getitem (chaps_pos s) (start s + cursor_row s) = Some pos →
     isin ch (ESCAPE_KEYS ++ CHAPTERTOCSWITCH_KEYS ++ chapter_scroll_keys) = false →
     ch ≠ ord "i" → ch ≠ ord "e" →
     res (chapter_iteration s chap (Input maxy maxx ch)) = Ok (Chapter s chap)).
Proof.
  split.
  - intros (Hs & Hc & Hsc) Hch. destruct s as [st row cp].
    cbn [start cursor_row chaps_pos] in *.
    unfold toc_navigation_keys in Hch. rewrite !isin_app, !orb_false_iff in Hch.
    destruct Hch as (Hesc & (Hdl & Hul & Hdp & Hup) & Hsw).
    destruct (list_chaps_run chaps st maxy ltac:(lia) ltac:(lia)) as [l0 Hl].
    unfold Reader.toc_iteration. res_steps. rewrite Hl. res_steps.
    rewrite Hesc, Hdl, Hul, Hdp, Hup, Hsw. res_steps.
    rewrite Z.geb_leb. destruct (Z.leb_spec maxy row); [lia | reflexivity].
  - intros chap pos Hpos Hch Hi He. destruct s as [st row cp].
    cbn [start cursor_row chaps_pos] in *.
    unfold chapter_scroll_keys in Hch. rewrite !isin_app, !orb_false_iff in Hch.
    destruct Hch as (Hesc & Hsw & Hdp & Hup & Hdl & Hul).
    unfold Reader.chapter_iteration. res_steps. rewrite Hpos. cbn [expect]. res_steps.
    destruct (draw_total addstr_ok (enumerate (slice chap pos (pos + maxy)))) as [imgs ->].
    res_steps. rewrite Hesc, Hsw, Hdp, Hup, Hdl, Hul.
    apply Z.eqb_neq in Hi, He. rewrite Hi, He. res_steps. reflexivity.
Qed.

(** X18.  The keys [q] and Esc end the session from either view, without
    reading anything from the archive. *)
Theorem quit_keys_return s maxy maxx ch :
  isin ch ESCAPE_KEYS = true →
  (toc_inv n maxy s →
   ∃ l, toc_iteration s (Input maxy maxx ch) = Run l (Ok Returned) ∧ reads l = []) ∧
  (∀ chap pos,
     getitem (chaps_pos s) (start s + cursor_row s) = Some pos →
     ∃ l, chapter_iteration s chap (Input maxy maxx ch) = Run l (Ok Returned) ∧
          reads l = []).
Proof.
  intros Hch. split.
  - intros (Hs & Hc & Hsc). destruct s as [st row cp].
    cbn [start cursor_row chaps_pos] in *.
    destruct (list_chaps_run_quiet chaps st maxy ltac:(lia) ltac:(lia))
      as (l0 & k & Hl & Hq).
    unfold Reader.toc_iteration. rewrite Hl, Hch. cbn.
    eexists; split; [reflexivity|]. rewrite reads_cons, reads_app, Hq. reflexivity.
  - intros chap pos Hpos. destruct s as [st row cp].
    cbn [start cursor_row chaps_pos] in *.
    unfold Reader.chapter_iteration. rewrite Hpos. cbn [expect]. rewrite bind_lift_ok.
    match goal with
    | |- context [for_each ?rows ?body []] =>
        pose proof (draw_reads rows) as Hq;
        destruct (draw_total addstr_ok rows) as [imgs Hi];
        set (draw := for_each rows body []) in *
    end.
    clearbody draw. rewrite <- (M_eta draw), Hi, bind_run_ok, Hch. cbn.
    eexists; split; [reflexivity|]. rewrite reads_app, Hq. reflexivity.
Qed.

(** X19.  Entering a chapter whose file is missing from the archive ends
    the session with a [KeyError], after that one read. *)
Theorem entering_a_missing_chapter_raises s maxy maxx ch title src :
  toc_inv n maxy s → isin ch CHAPTERTOCSWITCH_KEYS = true →
  getitem chaps (start s + cursor_row s) = Some (title, Some src) →
  src ≠ EmptyString → read src = None →
  ∃ l, toc_iteration s (Input maxy maxx ch) = Run l (Raise KeyError) ∧
       reads l = [src].
Proof.
  intros (Hs & Hc & Hsc) Hch Hget Hsrc Hread. destruct s as [st row cp].
  cbn [start cursor_row chaps_pos] in *.
  destruct (list_chaps_run_quiet chaps st maxy ltac:(lia) ltac:(lia))
    as (l0 & k & Hl & Hq).
  apply String.eqb_neq in Hsrc.
  unfold Reader.toc_iteration. rewrite Hl, Z.geb_leb.
  destruct (Z.leb_spec maxy row) as [?|_]; [lia|].
  apply isin_switch in Hch.
  destruct Hch as [-> | [-> | ->]]; keys; rewrite Hget; cbn [expect];
    rewrite bind_lift_ok; cbn [snd truthy]; rewrite Hsrc;
    unfold chapter_text, parse; rewrite Hread; cbn;
    (eexists; split; [reflexivity|]);
    rewrite reads_cons, reads_app, Hq; reflexivity.
Qed.

(** X20.  Entering a chapter reads that chapter's file and nothing else,
    leaves the window, the cursor and the offsets as they are, and shows
    the converted text cut at its line ends, which is at least one line. *)
Theorem entering_a_chapter s maxy maxx ch title src bytes text :
  toc_inv n maxy s → isin ch CHAPTERTOCSWITCH_KEYS = true →
  getitem chaps (start s + cursor_row s) = Some (title, Some src) →
  src ≠ EmptyString → read src = Some bytes →
  textify (str_find decode "body" (BeautifulSoup bytes)) (maxy, maxx) (Int maxx) =
    Some text →
  ∃ l, toc_iteration s (Input maxy maxx ch) =
         Run l (Ok (Chapter s (split newline text))) ∧
       reads l = [src] ∧
       split newline text ≠ [].
Proof.
  intros (Hs & Hc & Hsc) Hch Hget Hsrc Hread Htext. destruct s as [st row cp].
  cbn [start cursor_row chaps_pos] in *.
  destruct (list_chaps_run_quiet chaps st maxy ltac:(lia) ltac:(lia))
    as (l0 & k & Hl & Hq).
  apply String.eqb_neq in Hsrc.
  assert (Hne : split newline text ≠ []).
  { destruct text as [|c t]; [discriminate|]. simpl.
    destruct (Ascii.eqb c newline); [discriminate|]. now destruct (split newline t). }
  unfold Reader.toc_iteration. rewrite Hl, Z.geb_leb.
  destruct (Z.leb_spec maxy row) as [?|_]; [lia|].
  apply isin_switch in Hch.
  destruct Hch as [-> | [-> | ->]]; keys; rewrite Hget; cbn [expect];
    rewrite bind_lift_ok; cbn [snd truthy]; rewrite Hsrc;
    unfold chapter_text, parse; rewrite Hread; cbn -[textify split];
    rewrite Htext; cbn -[split];
    (eexists; split; [reflexivity|]);
    (split; [rewrite reads_cons, reads_app, Hq; reflexivity | exact Hne]).
Qed.

Lemma chapter_scroll_loop maxy chap inputs s pos :
  2 <= maxy → 0 <= start s + cursor_row s →
  getitem (chaps_pos s) (start s + cursor_row s) = Some pos →
  0 <= pos < Z.of_nat (length chap) →
  Forall (λ i, Reader.maxy i = maxy ∧ isin (ch i) chapter_scroll_keys = true) inputs →
  ∃ l pos',
    loop (Chapter s chap) inputs =
      Run l (Ok (Chapter (State (start s) (cursor_row s)
                            (<[Z.to_nat (start s + cursor_row s) := pos']> (chaps_pos s)))
                   chap)) ∧
    0 <= pos' < Z.of_nat (length chap).
Proof.
  intros Hmaxy Hhere Hpos Hin Hall. revert s pos Hhere Hpos Hin.
  induction Hall as [|[my mx k] inputs [Hmy Hk] _ IH]; intros s pos Hhere Hpos Hin.
  - exists [], pos. split; [|exact Hin]. destruct s as [st row cp].
    cbn [start cursor_row chaps_pos] in *. rewrite getitem_nonneg in Hpos by exact Hhere.
    now rewrite list_insert_id.
  - simpl in Hmy, Hk. subst my.
    destruct (chapter_scroll_res addstr_ok images read s chap maxy mx k pos Hpos
                (isin_chapter_scroll k Hk))
      as (pos1 & cp1 & Hres & Hset & Hdown & Hup & Hnpage & Hppage).
    destruct (run_of_res _ _ Hres) as [l1 Hl1].
    apply setitem_nonneg in Hset; [|exact Hhere].
    assert (Hin1 : 0 <= pos1 < Z.of_nat (length chap)).
    { destruct (isin_chapter_scroll k Hk) as [-> | [-> | [-> | ->]]].
      - destruct (Hdown eq_refl) as [Ha Hb].
        destruct (Z.lt_ge_cases (pos + maxy - 1) (Z.of_nat (length chap)));
          [rewrite Ha | rewrite Hb]; lia.
      - destruct (Hup eq_refl) as [Ha Hb].
        destruct (Z.lt_ge_cases 0 pos); [rewrite Ha | rewrite Hb]; lia.
      - destruct (Hnpage eq_refl) as [Ha Hb].
        destruct (Z.lt_ge_cases (pos + maxy - 1) (Z.of_nat (length chap)));
          [rewrite Ha | rewrite Hb]; lia.
      - destruct (Hppage eq_refl) as [Ha Hb].
        destruct (Z.lt_ge_cases 0 pos); [rewrite Ha | rewrite Hb]; lia. }
    assert (Hlt : (Z.to_nat (start s + cursor_row s) < length (chaps_pos s))%nat).
    { rewrite getitem_nonneg in Hpos by exact Hhere. now apply lookup_lt_Some in Hpos. }
    destruct (IH (State (start s) (cursor_row s) cp1) pos1) as (l2 & pos2 & Hl2 & Hin2).
    + exact Hhere.
    + cbn [start cursor_row chaps_pos]. rewrite getitem_nonneg by exact Hhere.
      subst cp1. now apply list_lookup_insert_eq.
    + exact Hin1.
    + exists (l1 ++ l2)%list, pos2. split; [|exact Hin2].
      rewrite loop_cons. cbn [Reader.iteration]. rewrite Hl1, bind_run_ok, Hl2.
      cbn [start cursor_row chaps_pos log res]. subst cp1.
      now rewrite list_insert_insert_eq.
Qed.

(** X21.  On a terminal of at least two rows the scroll keys keep the
    offset of the chapter on screen inside the chapter: from an offset
    between 0 and the last line, any sequence of arrow and page keys
    leaves the reader in that chapter at such an offset, so the top row
    always shows a line of the text. *)
Theorem chapter_offset_stays_inside maxy chap inputs s pos :
  2 <= maxy → 0 <= start s + cursor_row s →
  getitem (chaps_pos s) (start s + cursor_row s) = Some pos →
  0 <= pos < Z.of_nat (length chap) →
  Forall (λ i, Reader.maxy i = maxy ∧ isin (ch i) chapter_scroll_keys = true) inputs →
  ∃ l s' pos',
    loop (Chapter s chap) inputs = Run l (Ok (Chapter s' chap)) ∧
    start s' = start s ∧ cursor_row s' = cursor_row s ∧
    getitem (chaps_pos s') (start s' + cursor_row s') = Some pos' ∧
    0 <= pos' < Z.of_nat (length chap).
Proof.
  intros Hmaxy Hhere Hpos Hin Hall.
  destruct (chapter_scroll_loop maxy chap inputs s pos Hmaxy Hhere Hpos Hin Hall)
    as (l & pos' & Hl & Hin').
  eexists l, _, pos'. split; [exact Hl|]. cbn [start cursor_row chaps_pos].
  repeat split; try apply Hin'.
  rewrite getitem_nonneg by exact Hhere. apply list_lookup_insert_eq.
  rewrite getitem_nonneg in Hpos by exact Hhere. now apply lookup_lt_Some in Hpos.
Qed.

Lemma setitem_Some {A} (l l' : list A) i v :
  setitem l i v = Some l' →
  ∃ j, norm_index (Z.of_nat (length l)) i = Some j ∧ l' = <[j := v]> l.
Proof.
  unfold setitem. destruct (norm_index _ i) as [j|]; simpl; [|discriminate].
  intros [= <-]. eauto.
Qed.

Lemma norm_index_lt n i j : norm_index n i = Some j → Z.of_nat j < n.
Proof.
  unfold norm_index.
  destruct ((0 <=? (if i <? 0 then i + n else i)) &&
            ((if i <? 0 then i + n else i) <? n)) eqn:H; [|discriminate].
  apply andb_true_iff in H as [H1 H2]. intros [= <-]. lia.
Qed.

(** The scroll keys write the offset of the chapter on screen, at the
    place its index denotes, and nothing else. *)
Lemma chapter_scroll_frame chap inputs s j0 :
  norm_index (Z.of_nat (length (chaps_pos s))) (start s + cursor_row s) = Some j0 →
  Forall (λ i, isin (ch i) chapter_scroll_keys = true) inputs →
  ∃ l pos',
    loop (Chapter s chap) inputs =
      Run l (Ok (Chapter (State (start s) (cursor_row s) (<[j0 := pos']> (chaps_pos s)))
                   chap)).
Proof.
  intros Hj Hall. revert s Hj.
  induction Hall as [|[my mx k] inputs Hk _ IH]; intros s Hj.
  - destruct (lookup_lt_is_Some_2 (chaps_pos s) j0) as [pos Hpos].
    { apply norm_index_lt in Hj. lia. }
    exists [], pos. rewrite list_insert_id by exact Hpos. now destruct s.
  - cbn [ch] in Hk.
    destruct (lookup_lt_is_Some_2 (chaps_pos s) j0) as [pos Hpos].
    { apply norm_index_lt in Hj. lia. }
    assert (Hget : getitem (chaps_pos s) (start s + cursor_row s) = Some pos).
    { unfold getitem. rewrite Hj. exact Hpos. }
    destruct (chapter_scroll_res addstr_ok images read s chap my mx k pos Hget
                (isin_chapter_scroll k Hk))
      as (pos1 & cp1 & Hres & Hset & _).
    destruct (run_of_res _ _ Hres) as [l1 Hl1].
    apply setitem_Some in Hset as (j & Hj' & ->).
    rewrite Hj in Hj'. injection Hj' as <-.
    destruct (IH (State (start s) (cursor_row s) (<[j0 := pos1]> (chaps_pos s))))
      as (l2 & pos2 & Hl2).
    { cbn [start cursor_row chaps_pos]. rewrite length_insert. exact Hj. }
    exists (l1 ++ l2)%list, pos2.
    rewrite loop_cons. cbn [Reader.iteration]. rewrite Hl1, bind_run_ok, Hl2.
    cbn [start cursor_row chaps_pos log res]. now rewrite list_insert_insert_eq.
Qed.

(** X22.  Scrolling a chapter touches the offset of that chapter only: the
    offset of every other entry, and the number of offsets, are as
    before, on a terminal of any height, in a chapter of any length and
    wherever the offset stands. *)
Theorem scrolling_leaves_other_offsets chap inputs s pos :
  getitem (chaps_pos s) (start s + cursor_row s) = Some pos →
  Forall (λ i, isin (ch i) chapter_scroll_keys = true) inputs →
  ∃ l s',
    loop (Chapter s chap) inputs = Run l (Ok (Chapter s' chap)) ∧
    length (chaps_pos s') = length (chaps_pos s) ∧
    ∀ j : nat,
      norm_index (Z.of_nat (length (chaps_pos s))) (start s + cursor_row s) ≠ Some j →
      chaps_pos s' !! j = chaps_pos s !! j.
Proof.
  intros Hpos Hall. apply getitem_Some in Hpos as (j0 & Hj & _).
  destruct (chapter_scroll_frame chap inputs s j0 Hj Hall) as (l & pos' & Hl).
  eexists l, _. split; [exact Hl|]. cbn [chaps_pos]. split.
  - apply length_insert.
  - intros j Hne. apply list_lookup_insert_ne. congruence.
Qed.

(** X23.  Without the imaging modules the [i] key never ends the
    session, as long as the two messages it may write on the top row,
    [image not found] and [missing PIL or fabulous], can be drawn: the
    reader stays in the chapter with the state unchanged, whatever images
    the page names and whether or not the archive holds them. *)
Theorem show_images_keeps_the_session s chap maxy maxx pos :
  images = false →
  getitem (chaps_pos s) (start s + cursor_row s) = Some pos →
  addstr_ok 0 0 "image not found" = true →
  addstr_ok 0 0 "missing PIL or fabulous" = true →
  res (chapter_iteration s chap (Input maxy maxx (ord "i"))) = Ok (Chapter s chap).
Proof.
  intros Himages Hpos Hnone Hmissing. destruct s as [st row cp].
  cbn [start cursor_row chaps_pos] in *.
  unfold Reader.chapter_iteration. res_steps. rewrite Hpos. cbn [expect]. res_steps.
  destruct (draw_total addstr_ok (enumerate (slice chap pos (pos + maxy)))) as [imgs ->].
  res_steps. keys. res_steps.
  rewrite (for_each_total _ (λ _ _, tt)); [reflexivity|].
  intros [] img. unfold show_image, open_image. res_steps.
  destruct (read img); res_steps.
  - rewrite Himages. res_steps. now rewrite Hmissing.
  - now rewrite Hnone.
Qed.

End Session.

(** *** Drawing the table of contents *)

Lemma written_rows_app l1 l2 :
  written_rows (l1 ++ l2) = (written_rows l1 ++ written_rows l2)%list.
Proof. apply omap_app. Qed.

Lemma rows_loop (rows : list entry) (k : nat) (st : Z) :
  written_rows (log (for_each (imap (λ i x, (Z.of_nat (k + i), x)) rows)
    (λ start '(i, (title, src)),
       (if start =? 0 then tell [Addstr i 0 ("      " ++ title)%string]
        else tell [Clrtoeol;
                   Addstr i 0 (rjust 5 (str_of_int start) ++ " " ++ strip title)%string]);;
       mret (start + 1))
    st)) =
  imap (λ i e,
          (Z.of_nat (k + i),
           if st + Z.of_nat i =? 0 then ("      " ++ fst e)%string
           else (rjust 5 (str_of_int (st + Z.of_nat i)) ++ " " ++ strip (fst e))%string))
       rows.
Proof.
  revert k st. induction rows as [|[title src] rows IH]; intros k st; [reflexivity|].
  cbn [imap]. rewrite for_each_cons, log_bind, written_rows_app.
  assert (Hres : ∀ (m : M unit), res m = Ok tt → res (m;; mret (st + 1)) = Ok (st + 1)).
  { intros m Hm. now rewrite res_bind, Hm. }
  rewrite Hres by (destruct (st =? 0); reflexivity).
  rewrite (imap_ext _ (λ i x, (Z.of_nat (S k + i), x)) rows)
    by (intros i x _; cbn; do 2 f_equal; lia).
  rewrite IH. rewrite Nat.add_0_r, Z.add_0_r. cbn [fst].
  destruct (st =? 0); cbn [log written_rows omap app mbind M_bind tell res mret M_ret];
    (f_equal; apply imap_ext; intros i x _; cbn;
     replace (st + 1 + Z.of_nat i) with (st + Z.of_nat (S i)) by lia;
     do 2 f_equal; lia).
Qed.

(** X30.  [list_chaps] draws the window of the table of contents row by
    row: row i shows entry [start + i], numbered with its index and its
    title stripped, except entry 0, the title of the book, which is shown
    without a number. *)
Theorem list_chaps_rows (chaps : list entry) start length :
  written_rows (log (list_chaps chaps start length)) =
  imap (λ i e,
          (Z.of_nat i,
           if start + Z.of_nat i =? 0 then ("      " ++ fst e)%string
           else (rjust 5 (str_of_int (start + Z.of_nat i)) ++ " " ++
                 strip (fst e))%string))
       (slice chaps start (start + length)).
Proof.
  unfold list_chaps, enumerate. rewrite log_bind, written_rows_app.
  pose proof (rows_loop (slice chaps start (start + length)) 0 start) as Hrows.
  cbn [Nat.add] in Hrows. rewrite Hrows.
  match goal with
  | |- (_ ++ written_rows ?l)%list = _ =>
      assert (Hl : written_rows l = []); [|rewrite Hl, app_nil_r; reflexivity]
  end.
  destruct (res (for_each _ _ _)); [|reflexivity..].
  rewrite bind_tell. cbn [log].
  destruct (last _) as [[i ?]|]; reflexivity.
Qed.

Section World.

Variable isfile : string → bool.
Variable ZipFile : string → option (string → option string).
Variable BeautifulSoup : string → node.
Variable decode : node → string.
Variable addstr_ok : Z → Z → string → bool.
Variable images : bool.

(** X26.  A regular file is taken for a book whenever its name ends in
    [.epub] in any mix of upper and lower case, in whatever directory it
    lies, provided something other than dots comes before the
    extension. *)
Theorem epub_files_are_accepted dir name ext :
  dir = EmptyString ∨ (∃ d, dir = (d ++ "/")%string) →
  without "/" name = true →
  existsb (λ c, negb (Ascii.eqb "." c)) (list_ascii_of_string name) = true →
  without "/" ext = true → without "." ext = true →
  lower (String "." ext) = ".epub" →
  isfile (dir ++ name ++ String "." ext) = true →
  check_epub isfile (dir ++ name ++ String "." ext) = true.
Proof.
  intros Hdir Hname Hdot Hext1 Hext2 Hlower Hfile.
  unfold check_epub. rewrite Hfile. cbn [andb]. apply String.eqb_eq.
  rewrite <- Hlower. f_equal. unfold splitext_ext.
  rewrite (basename_in_directory dir _ Hdir).
  2:{ rewrite without_app, Hname. unfold without in *. simpl. exact Hext1. }
  rewrite (rcut_app_sep "." name ext Hext2).
  assert (Hall : all_char "." (name ++ str1 ".") = false).
  { rewrite all_char_app. apply andb_false_iff. left. unfold all_char.
    apply not_true_is_false. intros Hall. rewrite forallb_forall in Hall.
    apply existsb_exists in Hdot as (c & Hc & Hne). apply Hall in Hc.
    now rewrite Hc in Hne. }
  rewrite Hall. destruct name; reflexivity.
Qed.

(** X27.  A file whose name has nothing but dots before its last dot, such
    as [.epub] itself, has no extension and is not taken for a book. *)
Theorem dot_files_are_rejected dir dots ext :
  dir = EmptyString ∨ (∃ d, dir = (d ++ "/")%string) →
  all_char "." dots = true →
  without "/" ext = true → without "." ext = true →
  check_epub isfile (dir ++ dots ++ String "." ext) = false.
Proof.
  intros Hdir Hdots Hext1 Hext2.
  unfold check_epub. apply andb_false_iff. right. unfold splitext_ext.
  rewrite (basename_in_directory dir _ Hdir).
  2:{ rewrite without_app, (all_char_without "." "/" dots Hdots) by discriminate.
      unfold without in *. simpl. exact Hext1. }
  rewrite (rcut_app_sep "." dots ext Hext2).
  assert (Hall : all_char "." (dots ++ str1 ".") = true).
  { rewrite all_char_app, Hdots. reflexivity. }
  rewrite Hall. destruct dots; reflexivity.
Qed.

(** X28.  What dump mode does is the same for every column limit: the
    value of [--cols] changes neither what is read nor what is printed. *)
Theorem dump_ignores_the_column_limit fl (maxcol maxcol' : number) :
  dump_epub isfile ZipFile BeautifulSoup decode fl maxcol =
  dump_epub isfile ZipFile BeautifulSoup decode fl maxcol'.
Proof.
  assert (Htext : ∀ read src,
            chapter_text BeautifulSoup decode read src (80, 45) maxcol =
            chapter_text BeautifulSoup decode read src (80, 45) maxcol').
  { intros read src. unfold chapter_text. apply bind_ext. intros soup.
    now rewrite (textify_ignores_maxcol _ (80, 45) (80, 45) maxcol maxcol'). }
  assert (Hchap : ∀ read u chap,
            dump_chapter BeautifulSoup decode read maxcol u chap =
            dump_chapter BeautifulSoup decode read maxcol' u chap).
  { intros read u [title src]. unfold dump_chapter.
    destruct (truthy src) as [path|]; [|reflexivity]. now rewrite Htext. }
  assert (Hall : ∀ read chaps u,
            for_each chaps (dump_chapter BeautifulSoup decode read maxcol) u =
            for_each chaps (dump_chapter BeautifulSoup decode read maxcol') u).
  { intros read chaps. induction chaps as [|chap chaps IH]; intros u; [reflexivity|].
    rewrite !for_each_cons, Hchap. apply bind_ext. intros u'. apply IH. }
  unfold dump_epub. destruct (check_epub isfile fl); [|reflexivity]. cbn [negb].
  apply bind_ext. intros _. apply bind_ext. intros read. apply bind_ext.
  intros chaps. apply Hall.
Qed.

(** X29.  When the archive lacks [META-INF/container.xml] neither mode
    gets anywhere: after the one failed read the [KeyError] ends the
    program, with nothing printed or drawn and no key read. *)
Theorem missing_container_is_fatal fl read maxcol inputs :
  check_epub isfile fl = true → ZipFile fl = Some read →
  read "META-INF/container.xml" = None →
  dump_epub isfile ZipFile BeautifulSoup decode fl maxcol =
    Run [ZipOpen fl; ZipRead "META-INF/container.xml"] (Raise KeyError) ∧
  curses_epub isfile ZipFile BeautifulSoup decode addstr_ok images fl inputs =
    Run [ZipOpen fl; ZipRead "META-INF/container.xml"] (Raise KeyError).
Proof.
  intros Hcheck Hzip Hread.
  assert (Htoc : table_of_contents read BeautifulSoup =
                 Run [ZipRead "META-INF/container.xml"] (Raise KeyError)).
  { unfold table_of_contents, package, parse. rewrite Hread. reflexivity. }
  unfold dump_epub, curses_epub. rewrite Hcheck, Hzip. cbn [negb expect].
  rewrite !bind_tell. cbn beta. rewrite !bind_lift_ok, Htoc. split; reflexivity.
Qed.

End World.

(** *** On the small book *)

Lemma page_down_is_idempotent_witness :
  ∃ s1,
    res (Reader.toc_iteration Sample.BeautifulSoup Sample.markup Sample.read Sample.chaps
           (initial Sample.chaps) (Sample.key 2 KEY_NPAGE)) = Ok (Toc s1) ∧
    res (Reader.toc_iteration Sample.BeautifulSoup Sample.markup Sample.read Sample.chaps
           s1 (Sample.key 2 KEY_NPAGE)) = Ok (Toc s1).
Proof.
  apply (page_down_is_idempotent Sample.BeautifulSoup Sample.markup Sample.read
           Sample.chaps (initial Sample.chaps) 2 80).
  unfold toc_inv. simpl. lia.
Defined.

Lemma line_down_reaches_every_entry_witness :
  ∃ l s,
    Sample.loop Sample.chaps (Toc (initial Sample.chaps))
      (replicate 2 (Input 3 80 KEY_DOWN)) = Run l (Ok (Toc s)) ∧
    start s + cursor_row s = Z.min (Z.of_nat 2) (Z.of_nat (length Sample.chaps) - 1).
Proof.
  apply (line_down_reaches_every_entry Sample.BeautifulSoup Sample.markup
           Sample.addstr_ok Sample.images Sample.read Sample.chaps 3 80 2); simpl; lia.
Defined.

Lemma unbound_keys_change_nothing_witness :
  res (Reader.toc_iteration Sample.BeautifulSoup Sample.markup Sample.read Sample.chaps
         (initial Sample.chaps) (Sample.key 5 (ord "x"))) =
    Ok (Toc (initial Sample.chaps)) ∧
  res (Reader.chapter_iteration Sample.addstr_ok Sample.images Sample.read (initial Sample.chaps)
         [] (Sample.key 5 (ord "x"))) =
    Ok (Chapter (initial Sample.chaps) []).
Proof.
  destruct (unbound_keys_change_nothing Sample.BeautifulSoup Sample.markup
              Sample.addstr_ok Sample.images Sample.read Sample.chaps (initial Sample.chaps)
              5 80 (ord "x")) as [Htoc Hchapter].
  split.
  - apply Htoc; [unfold toc_inv; simpl; lia | reflexivity].
  - apply (Hchapter [] 0); [reflexivity | reflexivity | discriminate | discriminate].
Defined.

Lemma quit_keys_return_witness :
  ∃ l, Reader.toc_iteration Sample.BeautifulSoup Sample.markup Sample.read Sample.chaps
         (initial Sample.chaps) (Sample.key 5 (ord "q")) = Run l (Ok Returned) ∧
       reads l = [].
Proof.
  apply (quit_keys_return Sample.BeautifulSoup Sample.markup Sample.addstr_ok Sample.images
           Sample.read Sample.chaps (initial Sample.chaps) 5 80 (ord "q") eq_refl).
  unfold toc_inv. simpl. lia.
Defined.

Lemma entering_a_missing_chapter_raises_witness :
  ∃ l, Reader.toc_iteration Sample.BeautifulSoup Sample.markup (λ _, None) Sample.chaps
         (State 0 1 [0; 0; 0; 0]) (Sample.key 5 HT) = Run l (Raise KeyError) ∧
       reads l = ["ch1.html"].
Proof.
  apply (entering_a_missing_chapter_raises Sample.BeautifulSoup Sample.markup
           (λ _, None) Sample.chaps (State 0 1 [0; 0; 0; 0]) 5 80 HT "One" "ch1.html");
    [unfold toc_inv; simpl; lia | reflexivity | reflexivity | discriminate | reflexivity].
Defined.

Lemma entering_a_chapter_witness :
  ∃ l, Reader.toc_iteration Sample.BeautifulSoup Sample.markup Sample.read Sample.chaps
         (State 0 1 [0; 0; 0; 0]) (Sample.key 5 HT) =
         Run l (Ok (Chapter (State 0 1 [0; 0; 0; 0]) (split newline Sample.lines14))) ∧
       reads l = ["ch1.html"] ∧
       split newline Sample.lines14 ≠ [].
Proof.
  apply (entering_a_chapter Sample.BeautifulSoup Sample.markup Sample.read Sample.chaps
           (State 0 1 [0; 0; 0; 0]) 5 80 HT "One" "ch1.html" "ch1.html" Sample.lines14);
    [unfold toc_inv; simpl; lia | reflexivity | reflexivity | discriminate
    | reflexivity | reflexivity].
Defined.

Lemma chapter_offset_stays_inside_witness :
  ∃ l s' pos',
    Sample.loop Sample.chaps
      (Chapter (State 0 1 [0; 0; 0; 0]) (split newline Sample.lines14))
      (map (Sample.key 5) [KEY_DOWN; KEY_NPAGE; KEY_UP]) =
      Run l (Ok (Chapter s' (split newline Sample.lines14))) ∧
    start s' = 0 ∧ cursor_row s' = 1 ∧
    getitem (chaps_pos s') (start s' + cursor_row s') = Some pos' ∧
    0 <= pos' < Z.of_nat (length (split newline Sample.lines14)).
Proof.
  apply (chapter_offset_stays_inside Sample.BeautifulSoup Sample.markup
           Sample.addstr_ok Sample.images Sample.read Sample.chaps 5
           (split newline Sample.lines14)
           (map (Sample.key 5) [KEY_DOWN; KEY_NPAGE; KEY_UP])
           (State 0 1 [0; 0; 0; 0]) 0);
    [lia | simpl; lia | reflexivity | simpl; lia | repeat constructor].
Defined.

Lemma scrolling_leaves_other_offsets_witness :
  ∃ l s',
    Sample.loop Sample.chaps
      (Chapter (State 0 1 [0; 0; 7; 0]) (split newline Sample.lines14))
      [Sample.key 5 KEY_DOWN; Sample.key 1 KEY_NPAGE] =
      Run l (Ok (Chapter s' (split newline Sample.lines14))) ∧
    length (chaps_pos s') = 4%nat ∧
    ∀ j : nat, Some 1%nat ≠ Some j → chaps_pos s' !! j = [0; 0; 7; 0] !! j.
Proof.
  apply (scrolling_leaves_other_offsets Sample.BeautifulSoup Sample.markup
           Sample.addstr_ok Sample.images Sample.read Sample.chaps
           (split newline Sample.lines14)
           [Sample.key 5 KEY_DOWN; Sample.key 1 KEY_NPAGE]
           (State 0 1 [0; 0; 7; 0]) 0);
    [reflexivity | repeat constructor].
Defined.

Lemma show_images_keeps_the_session_witness :
  res (Reader.chapter_iteration Sample.addstr_ok Sample.images (λ _, Some "bytes")
         (State 0 1 [0; 0; 0; 0])
         [img_marker "images/cover.jpg" "Cover"] (Sample.key 5 (ord "i"))) =
    Ok (Chapter (State 0 1 [0; 0; 0; 0]) [img_marker "images/cover.jpg" "Cover"]).
Proof.
  apply (show_images_keeps_the_session Sample.addstr_ok Sample.images (λ _, Some "bytes")
           (State 0 1 [0; 0; 0; 0]) [img_marker "images/cover.jpg" "Cover"] 5 80 0);
    reflexivity.
Defined.

Lemma epub_files_are_accepted_witness :
  check_epub (λ _, true) "books/My.Book.EPub" = true.
Proof.
  apply (epub_files_are_accepted (λ _, true) "books/" "My.Book" "EPub");
    [right; now exists "books" | reflexivity..].
Defined.

Lemma dot_files_are_rejected_witness :
  check_epub (λ _, true) "books/.epub" = false.
Proof.
  apply (dot_files_are_rejected (λ _, true) "books/" EmptyString "epub");
    [right; now exists "books" | reflexivity..].
Defined.

Lemma missing_container_is_fatal_witness :
  Reader.dump_epub (λ _, true) (λ _, Some (λ _, None)) Sample.BeautifulSoup
    Sample.markup "book.epub" PosInf =
    Run [ZipOpen "book.epub"; ZipRead "META-INF/container.xml"] (Raise KeyError) ∧
  Reader.curses_epub (λ _, true) (λ _, Some (λ _, None)) Sample.BeautifulSoup
    Sample.markup Sample.addstr_ok Sample.images "book.epub" [Sample.key 24 KEY_DOWN] =
    Run [ZipOpen "book.epub"; ZipRead "META-INF/container.xml"] (Raise KeyError).
Proof.
  apply (missing_container_is_fatal (λ _, true) (λ _, Some (λ _, None))
           Sample.BeautifulSoup Sample.markup Sample.addstr_ok Sample.images "book.epub"
           (λ _, None) PosInf [Sample.key 24 KEY_DOWN]); reflexivity.
Defined.

End ReaderMore.
